(** * Persona backend (src/app.py): a shallow embedding and its properties

    The Flask application of [src/app.py] is embedded as state-passing
    functions over an explicit world: the process-wide [memory] dictionary
    and the list of requests handed to [requests.post] so far.  Python
    values that cross the JSON boundary are values of the type [json]; a
    Python exception is a value of type [exn] returned on the left of a sum,
    together with the world as the handler left it.

    A view function is modelled from its decoded request body on: the
    decoding of the body by [request.get_json] and what Flask makes of an
    exception that escapes a view are outside the model, and requests are
    handled one at a time.  The remote service is a function from the
    position of a call and its request to an outcome: an exception out of
    [requests.post], or a response whose [r.json()] raises or returns.

    Strings are Rocq strings read as sequences of code points below 256
    (Latin-1), on which [str.strip] and [str.lower] are written out as
    CPython computes them. *)

From Stdlib Require Import Ascii.
From stdpp Require Import gmap strings list pretty.

Local Open Scope string_scope.
Local Open Scope Z_scope.

(** ** Python values *)

Module Py.

(** A binary64, kept as its bit pattern: floats are only carried around
    ([temperature], [time.time()]), never computed with. *)
Definition float64 : Type := Z.

(** What [json.loads] / [request.get_json] can produce, and what [jsonify]
    takes: [None], [bool], [int], [float], [str], [list], [dict]. *)
#[warnings="-register-all"]
Inductive json : Type :=
  | JNull
  | JBool (b : bool)
  | JInt (n : Z)
  | JFloat (bits : float64)
  | JStr (s : string)
  | JArr (xs : list json)
  | JObj (kvs : gmap string json).

Inductive exn_kind : Type :=
  | TypeError
  | KeyError
  | IndexError
  | AttributeError
  | RequestException   (* whatever [requests.post] raises *)
  | JSONDecodeError.   (* whatever [r.json()] raises *)

(** An exception object: its class and [str(e)]. *)
Record exn : Type := Exn { exn_class : exn_kind; exn_str : string }.

Definition result (A : Type) : Type := exn + A.

Definition ok {A} (a : A) : result A := inr a.
Definition raise {A} (k : exn_kind) (msg : string) : result A := inl (Exn k msg).

#[global] Instance result_ret : MRet result := λ A a, ok a.

#[global] Instance result_bind : MBind result := λ A B f r,
  match r with
  | inr a => f a
  | inl e => inl e
  end.

(** *** Characters and strings *)

Definition code (a : ascii) : N := N_of_ascii a.

(** [str.isspace] on one code point below 256. *)
Definition isspace (a : ascii) : bool :=
  let c := code a in
  ((9 <=? c) && (c <=? 13) || (28 <=? c) && (c <=? 32)
   || (c =? 133) || (c =? 160))%N.

(** [str.lower] on one code point below 256: A-Z, and the Latin-1 capitals
    U+00C0..U+00DE except the multiplication sign U+00D7. *)
Definition lower_char (a : ascii) : ascii :=
  let c := code a in
  if ((65 <=? c) && (c <=? 90)
      || (192 <=? c) && (c <=? 222) && negb (c =? 215))%N
  then ascii_of_N (c + 32) else a.

Fixpoint lower (s : string) : string :=
  match s with
  | EmptyString => EmptyString
  | String a s' => String (lower_char a) (lower s')
  end.

Fixpoint lstrip (s : string) : string :=
  match s with
  | EmptyString => EmptyString
  | String a s' => if isspace a then lstrip s' else s
  end.

(** Drops trailing whitespace: a character survives when it is not a space
    or when something survives after it. *)
Fixpoint rstrip (s : string) : string :=
  match s with
  | EmptyString => EmptyString
  | String a s' =>
      match rstrip s' with
      | EmptyString => if isspace a then EmptyString else String a EmptyString
      | r => String a r
      end
  end.

Definition strip (s : string) : string := rstrip (lstrip s).

(** [sub in s] for two strings. *)
Fixpoint str_contains (sub s : string) : bool :=
  String.prefix sub s ||
  match s with
  | EmptyString => false
  | String _ s' => str_contains sub s'
  end.

(** *** Operators on decoded JSON *)

(** [bool(v)]. *)
Definition truthy (v : json) : bool :=
  match v with
  | JNull => false
  | JBool b => b
  | JInt n => negb (n =? 0)
  | JFloat bits => negb ((bits =? 0) || (bits =? 2 ^ 63))
  | JStr s => negb (String.eqb s "")
  | JArr xs => match xs with [] => false | _ => true end
  | JObj kvs => negb (bool_decide (kvs = ∅))
  end.

(** [a or b]. *)
Definition or_ (a b : json) : json := if truthy a then a else b.

(** [v == key] for a string [key]. *)
Definition eq_str (key : string) (v : json) : bool :=
  match v with
  | JStr s => String.eqb key s
  | _ => false
  end.

(** [key in v] for a string [key]: key membership on a dict, element
    membership on a list, substring on a str; the other types are not
    iterable. *)
Definition contains (key : string) (v : json) : result bool :=
  match v with
  | JObj kvs => ok (bool_decide (is_Some (kvs !! key)))
  | JArr xs => ok (existsb (eq_str key) xs)
  | JStr s => ok (str_contains key s)
  | _ => raise TypeError "argument is not iterable"
  end.

(** [v.get(key, default)]: only a dict has the method. *)
Definition get (v : json) (key : string) (dflt : json) : result json :=
  match v with
  | JObj kvs => ok (default dflt (kvs !! key))
  | _ => raise AttributeError "object has no attribute 'get'"
  end.

(** [v.strip()] and [v.lower()]: str methods. *)
Definition strip_ (v : json) : result string :=
  match v with
  | JStr s => ok (strip s)
  | _ => raise AttributeError "object has no attribute 'strip'"
  end.

Definition lower_ (v : json) : result string :=
  match v with
  | JStr s => ok (lower s)
  | _ => raise AttributeError "object has no attribute 'lower'"
  end.

(** [v[key]] for a string [key]. *)
Definition getitem_str (v : json) (key : string) : result json :=
  match v with
  | JObj kvs =>
      match kvs !! key with
      | Some x => ok x
      | None => raise KeyError key
      end
  | JArr _ => raise TypeError "list indices must be integers or slices, not str"
  | JStr _ => raise TypeError "string indices must be integers"
  | _ => raise TypeError "object is not subscriptable"
  end.

(** Position of index [i] in a sequence of length [len], negative indices
    counting from the end. *)
Definition index_pos (i : Z) (len : nat) : option nat :=
  let j := if i <? 0 then i + Z.of_nat len else i in
  if (0 <=? j) && (j <? Z.of_nat len) then Some (Z.to_nat j) else None.

Definition str_at (s : string) (n : nat) : option string :=
  match String.get n s with
  | Some a => Some (String a EmptyString)
  | None => None
  end.

(** [v[i]] for an integer [i].  The keys of a decoded JSON object are
    strings, so an integer is never one of them. *)
Definition getitem_int (v : json) (i : Z) : result json :=
  match v with
  | JArr xs =>
      match index_pos i (length xs) ≫= (xs !!.) with
      | Some x => ok x
      | None => raise IndexError "list index out of range"
      end
  | JStr s =>
      match index_pos i (String.length s) ≫= str_at s with
      | Some c => ok (JStr c)
      | None => raise IndexError "string index out of range"
      end
  | JObj _ => raise KeyError (pretty i)
  | _ => raise TypeError "object is not subscriptable"
  end.

(** [l[i:]]: the start is clamped into [0, len]. *)
Definition slice_from {A} (i : Z) (l : list A) : list A :=
  let len := Z.of_nat (length l) in
  let start := if i <? 0 then Z.max (i + len) 0 else Z.min i len in
  drop (Z.to_nat start) l.

End Py.

(** ** The application *)

Module App.
Import Py.

(** *** The outside world *)

(** What [requests.post] is given. *)
Record Request : Type := {
  url : string;
  headers : gmap string string;
  payload : json;          (* the [json=] argument *)
  timeout : Z
}.

(** What [requests.post] returns: the handler only ever calls [r.json()] on
    it, which decodes the body or raises. *)
Record Response : Type := {
  status_code : Z;
  decoded : result json
}.

(** The process environment, the remote service and the clock.  The outcome
    of the [n]-th upstream call of the process may depend on [n] and on the
    request. *)
Record Env : Type := {
  environ : gmap string string;
  upstream : nat → Request → result Response;
  clock : float64
}.

(** [os.getenv(key, default)]. *)
Definition getenv (e : Env) (key dflt : string) : string :=
  default dflt (environ e !! key).

Definition OPENROUTER_KEY (e : Env) : string := getenv e "OPENROUTER_KEY" "".
Definition MODEL (e : Env) : string :=
  getenv e "OPENROUTER_MODEL" "meta-llama/llama-3.1-8b-instruct".

(** *** The state store *)

Record History : Type := {
  chats : list json;    (* list of {user, ai, ts} *)
  tasks : list json;    (* list of {goal, items (string), ts} *)
  emails : list json    (* list of {thread, draft, ts} *)
}.

Record Memory : Type := {
  xp : Z;
  last_chat : json;
  last_tasks : json;
  history : History
}.

Definition no_history : History := {| chats := []; tasks := []; emails := [] |}.

Definition memory : Memory :=
  {| xp := 500; last_chat := JNull; last_tasks := JNull; history := no_history |}.

(** The state a handler runs in: [memory], and the requests sent upstream
    since the process started, oldest first. *)
Record World : Type := {
  mem : Memory;
  sent : list Request
}.

Definition boot : World := {| mem := memory; sent := [] |}.

(** *** Handlers as state transformers that may raise *)

Definition M (A : Type) : Type := World → result A * World.

#[global] Instance M_ret : MRet M := λ A a w, (ok a, w).

#[global] Instance M_bind : MBind M := λ A B f m w,
  match m w with
  | (inr a, w') => f a w'
  | (inl e, w') => (inl e, w')
  end.

Definition lift {A} (r : result A) : M A := λ w, (r, w).

(** [try: body  except Exception as e: handler(e)]. *)
Definition try_except {A} (body : M A) (handler : exn → M A) : M A := λ w,
  match body w with
  | (inl e, w') => handler e w'
  | (inr a, w') => (inr a, w')
  end.

(** [for x in l: body(x)] where the body may [return]; [orelse] is the code
    after the loop. *)
Fixpoint for_return {A B} (l : list A) (body : A → M (option B)) (orelse : M B)
  : M B :=
  match l with
  | [] => orelse
  | x :: l' =>
      r ← body x;
      match r with
      | Some b => mret b
      | None => for_return l' body orelse
      end
  end.

Definition read_memory : M Memory := λ w, (ok (mem w), w).

Definition write_memory (f : Memory → Memory) : M unit := λ w,
  (ok (), {| mem := f (mem w); sent := sent w |}).

Definition set_xp (v : Z) (m : Memory) : Memory :=
  {| xp := v; last_chat := last_chat m; last_tasks := last_tasks m;
     history := history m |}.
Definition set_last_chat (v : json) (m : Memory) : Memory :=
  {| xp := xp m; last_chat := v; last_tasks := last_tasks m;
     history := history m |}.
Definition set_last_tasks (v : json) (m : Memory) : Memory :=
  {| xp := xp m; last_chat := last_chat m; last_tasks := v;
     history := history m |}.
Definition set_history (h : History) (m : Memory) : Memory :=
  {| xp := xp m; last_chat := last_chat m; last_tasks := last_tasks m;
     history := h |}.

(** [memory["history"][...].append(entry)]. *)
Definition append_chats (entry : json) (m : Memory) : Memory :=
  set_history {| chats := chats (history m) ++ [entry];
                 tasks := tasks (history m);
                 emails := emails (history m) |} m.
Definition append_tasks (entry : json) (m : Memory) : Memory :=
  set_history {| chats := chats (history m);
                 tasks := tasks (history m) ++ [entry];
                 emails := emails (history m) |} m.
Definition append_emails (entry : json) (m : Memory) : Memory :=
  set_history {| chats := chats (history m);
                 tasks := tasks (history m);
                 emails := emails (history m) ++ [entry] |} m.

Section WithEnv.
Context (env : Env).

(** [requests.post(...)]: one more request on the wire, whose outcome the
    world decides. *)
Definition requests_post (req : Request) : M Response := λ w,
  (upstream env (length (sent w)) req,
   {| mem := mem w; sent := sent w ++ [req] |}).

(** [r.json()]. *)
Definition json_ (r : Response) : M json := lift (decoded r).

(** [__import__("time").time()]. *)
Definition time_time : M float64 := mret (clock env).

Definition _headers (title : string) : gmap string string :=
  {[ "Authorization" := "Bearer " +:+ OPENROUTER_KEY env;
     "HTTP-Referer" := "http://localhost:5001";
     "X-Title" := title;
     "Content-Type" := "application/json" ]}.

(** The request [call_openrouter] builds. *)
Definition completion_request
    (messages : json) (model : string) (max_tokens : Z) (temperature : float64)
    (title : string) : Request :=
  {| url := "https://openrouter.ai/api/v1/chat/completions";
     headers := _headers title;
     payload := JObj {[ "model" := JStr model;
                        "messages" := messages;
                        "max_tokens" := JInt max_tokens;
                        "temperature" := JFloat temperature ]};
     timeout := 60 |}.

(** The defaults of the source ([model=MODEL], [max_tokens=120],
    [temperature=0.7], [title="Persona"]) are never used: every call site
    passes all five arguments. *)
Definition call_openrouter
    (messages : json) (model : string) (max_tokens : Z) (temperature : float64)
    (title : string) : M json :=
  try_except
    (r ← requests_post
           (completion_request messages model max_tokens temperature title);
     data ← json_ r;
     mret data)
    (λ e, mret (JObj {[ "error" := JStr (exn_str e) ]})).

(** *** The request handlers *)

(** What a view function hands back to Flask: [jsonify(body)], with a
    status when the view returns a pair. *)
Record Reply : Type := { status : Z; body : json }.

Definition jsonify (v : json) : Reply := {| status := 200; body := v |}.
Definition jsonify_with (v : json) (code : Z) : Reply :=
  {| status := code; body := v |}.

(** The literals 0.7 and 0.6 as binary64. *)
Definition f0_7 : float64 := 0x3FE6666666666666.
Definition f0_6 : float64 := 0x3FE3333333333333.

Definition message (role content : string) : json :=
  JObj {[ "role" := JStr role; "content" := JStr content ]}.

(** [resp["choices"][0]["message"]["content"]]. *)
Definition first_content (resp : json) : result json :=
  c ← getitem_str resp "choices";
  c0 ← getitem_int c 0;
  m ← getitem_str c0 "message";
  getitem_str m "content".

Definition models : list string :=
  [ "meta-llama/llama-3.1-8b-instruct";     (* primary *)
    "mistralai/mistral-7b-instruct-v0.3";   (* fallback 1 *)
    "google/gemma-2-9b-it" ].               (* fallback 2 *)

Definition chat_system : string :=
  "You are Persona, a concise, friendly assistant. " +:+
  "Reply in under 3 lines, with clarity and encouragement.".

(** The body of the loop of [ask] for one model [m]; [Some] is a [return]. *)
Definition ask_attempt (q : string) (m : string) : M (option Reply) :=
  resp ← call_openrouter
           (JArr [message "system" chat_system; message "user" q])
           m 80 f0_7 "Persona Chat";
  has ← lift (contains "choices" resp);
  if has : bool then
    ai ← lift (first_content resp);
    ts ← time_time;
    write_memory (append_chats
      (JObj {[ "user" := JStr q; "ai" := ai; "ts" := JFloat ts ]}));;
    mret (Some (jsonify (JObj {[ "reply" := ai; "model" := JStr m ]})))
  else mret None.

(** POST /api/ask *)
Definition ask (data : json) : M Reply :=
  v ← lift (get data "message" (JStr ""));
  q ← lift (strip_ v);
  if String.eqb q "" then
    mret (jsonify_with (JObj {[ "error" := JStr "Empty message" ]}) 400)
  else
    write_memory (set_last_chat (JStr q));;
    for_return models (ask_attempt q)
      (mret (jsonify_with (JObj {[ "error" := JStr "All models failed" ]}) 500)).

Definition tasks_system : string :=
  "You are Persona, an intelligent planner. " +:+
  "Output exactly 3 short bullet points, crisp and doable.".

(** POST /api/tasks *)
Definition create_tasks (data : json) : M Reply :=
  v ← lift (get data "goal" (JStr "Plan my day effectively"));
  goal ← lift (strip_ v);
  resp ← call_openrouter
           (JArr [message "system" tasks_system; message "user" goal])
           (MODEL env) 90 f0_7 "Persona Task Generator";
  has ← lift (contains "choices" resp);
  if has : bool then
    items ← lift (first_content resp);
    write_memory (set_last_tasks items);;
    ts ← time_time;
    write_memory (append_tasks
      (JObj {[ "goal" := JStr goal; "items" := items; "ts" := JFloat ts ]}));;
    mret (jsonify (JObj {[ "tasks" := items ]}))
  else mret (jsonify_with (JObj {[ "error" := resp ]}) 400).

Definition email_system : string :=
  "You are Persona, a professional email assistant. " +:+
  "Write a concise reply under 100 words, with greeting and closing.".

Definition newline : string := String (ascii_of_N 10) EmptyString.

(** POST /api/draft-email *)
Definition draft_email (data : json) : M Reply :=
  v ← lift (get data "thread" (JStr ""));
  thread ← lift (strip_ v);
  if String.eqb thread "" then
    mret (jsonify_with (JObj {[ "error" := JStr "Empty thread" ]}) 400)
  else
    write_memory (set_last_chat (JStr thread));;
    resp ← call_openrouter
             (JArr [message "system" email_system;
                    message "user"
                      ("Draft a reply for this thread:" +:+ newline +:+ newline
                       +:+ thread)])
             (MODEL env) 130 f0_6 "Persona Email Writer";
    has ← lift (contains "choices" resp);
    if has : bool then
      draft ← lift (first_content resp);
      ts ← time_time;
      write_memory (append_emails
        (JObj {[ "thread" := JStr thread; "draft" := draft;
                 "ts" := JFloat ts ]}));;
      mret (jsonify (JObj {[ "draft" := draft ]}))
    else mret (jsonify_with (JObj {[ "error" := resp ]}) 400).

(** The gain table of [xp_update]. *)
Definition gains : gmap string Z := {[ "chat" := 10; "task" := 20; "email" := 15 ]}.

(** POST /api/xp *)
Definition xp_update (data : json) : M Reply :=
  v ← lift (get data "action" JNull);
  action ← lift (lower_ (or_ v (JStr "chat")));
  let gain := default 5 (gains !! action) in
  write_memory (λ m, set_xp (xp m + gain) m);;
  m ← read_memory;
  mret (jsonify (JObj {[ "action" := JStr action; "xp_gained" := JInt gain;
                         "total_xp" := JInt (xp m) ]})).

(** GET /api/health *)
Definition health : M Reply :=
  m ← read_memory;
  mret (jsonify (JObj {[ "ok" := JBool true;
                         "model" := JStr (MODEL env);
                         "xp" := JInt (xp m);
                         "last_chat" := last_chat m;
                         "last_tasks" := last_tasks m ]})).

(** GET /api/history *)
Definition get_history : M Reply :=
  m ← read_memory;
  let h := history m in
  mret (jsonify (JObj {[ "chats" := JArr (slice_from (-20) (chats h));
                         "tasks" := JArr (slice_from (-20) (tasks h));
                         "emails" := JArr (slice_from (-20) (emails h)) ]})).

(** POST /api/history/clear *)
Definition clear_history : M Reply :=
  write_memory (set_history {| chats := []; tasks := []; emails := [] |});;
  mret (jsonify (JObj {[ "ok" := JBool true ]})).

(** The routes of the application, each with its decoded request body. *)
Inductive Call : Type :=
  | PostAsk (data : json)
  | PostTasks (data : json)
  | PostDraftEmail (data : json)
  | PostXp (data : json)
  | GetHealth
  | GetHistory
  | PostHistoryClear.

Definition handle (c : Call) : M Reply :=
  match c with
  | PostAsk data => ask data
  | PostTasks data => create_tasks data
  | PostDraftEmail data => draft_email data
  | PostXp data => xp_update data
  | GetHealth => health
  | GetHistory => get_history
  | PostHistoryClear => clear_history
  end.

End WithEnv.

End App.

(** ** Vocabulary of the properties *)

Module Spec.
Import Py App.

(** A string made of whitespace only (the empty string included). *)
Fixpoint blank (s : string) : bool :=
  match s with
  | EmptyString => true
  | String a s' => isspace a && blank s'
  end.

(** The value tagged as an error that stands for a captured fault. *)
Definition error_value (e : exn) : json := JObj {[ "error" := JStr (exn_str e) ]}.

(** What the caller of the upstream client holds after an upstream call with
    outcome [o]. *)
Definition received (o : result Response) : json :=
  match o with
  | inl e => error_value e
  | inr r =>
      match decoded r with
      | inl e => error_value e
      | inr data => data
      end
  end.

(** The request of the chat endpoint for question [q] and model [m], and
    the response it gets when it is the [n]-th upstream call. *)
Definition chat_request (env : Env) (q m : string) : Request :=
  completion_request env
    (JArr [message "system" chat_system; message "user" q])
    m 80 f0_7 "Persona Chat".

Definition attempt (env : Env) (q : string) (n : nat) (m : string) : json :=
  received (upstream env n (chat_request env q m)).

(** The world after [reqs] went out. *)
Definition after_sending (reqs : list Request) (w : World) : World :=
  {| mem := mem w; sent := sent w ++ reqs |}.

(** The world with [memory] changed by [f]. *)
Definition with_memory (f : Memory → Memory) (w : World) : World :=
  {| mem := f (mem w); sent := sent w |}.

(** A response "containing a non-empty [choices] list". *)
Definition nonempty_choices (resp : json) : bool :=
  match resp with
  | JObj kvs =>
      match kvs !! "choices" with
      | Some (JArr (_ :: _)) => true
      | _ => false
      end
  | _ => false
  end.

(** The fallback rule read literally: the loop of /api/ask, started in [w]
    on the message [s], stops at the first model whose response contains a
    non-empty [choices] list, answers with that response's first message
    content under that model's name, and has sent one request per model
    tried. *)
Definition stops_at_first_nonempty_choices (env : Env) (s : string) (w : World)
  : Prop :=
  ∀ (k : nat) (m : string) (ai : json),
    models !! k = Some m →
    (∀ (j : nat) (m' : string), (j < k)%nat → models !! j = Some m' →
       nonempty_choices (attempt env (strip s) (length (sent w) + j) m') = false) →
    nonempty_choices (attempt env (strip s) (length (sent w) + k) m) = true →
    first_content (attempt env (strip s) (length (sent w) + k) m) = ok ai →
    let (r, w') := ask env (JObj {[ "message" := JStr s ]}) w in
    r = ok (jsonify (JObj {[ "reply" := ai; "model" := JStr m ]}))
    ∧ length (sent w') = (length (sent w) + S k)%nat.

(** The XP rule read literally: the label is the given string lower-cased,
    or "chat" when the body has no [action]; the gain is looked up in the
    table with default 5, added to the total, and the three are returned. *)
Definition label_as_stated (kvs : gmap string json) : option string :=
  match kvs !! "action" with
  | None => Some "chat"
  | Some (JStr s) => Some (lower s)
  | Some _ => None
  end.

Definition xp_as_stated (kvs : gmap string json) (w : World) : Prop :=
  ∀ label : string,
    label_as_stated kvs = Some label →
    let gain := default 5 (gains !! label) in
    xp_update (JObj kvs) w
      = (ok (jsonify (JObj {[ "action" := JStr label;
                              "xp_gained" := JInt gain;
                              "total_xp" := JInt (xp (mem w) + gain) ]})),
         with_memory (set_xp (xp (mem w) + gain)) w).

(** [window] holds the [n] most recent entries of the log [l] (all of them
    when there are fewer), oldest first. *)
Definition most_recent {A} (n : nat) (l window : list A) : Prop :=
  length window = (n `min` length l)%nat
  ∧ ∀ i : nat, (i < length window)%nat →
      window !! i = l !! (length l - length window + i)%nat.

(** Every entry of the three logs of [h] is still in [h'], at its place. *)
Definition extends (h h' : History) : Prop :=
  chats h `prefix_of` chats h'
  ∧ tasks h `prefix_of` tasks h'
  ∧ emails h `prefix_of` emails h'.

(** A computation that only ever appends to the logs. *)
Definition append_only {A} (m : M A) : Prop :=
  ∀ w : World, extends (history (mem w)) (history (mem (m w).2)).

(** The requests of the task and e-mail endpoints. *)
Definition tasks_request (env : Env) (goal : string) : Request :=
  completion_request env
    (JArr [message "system" tasks_system; message "user" goal])
    (MODEL env) 90 f0_7 "Persona Task Generator".

Definition email_request (env : Env) (thread : string) : Request :=
  completion_request env
    (JArr [message "system" email_system;
           message "user"
             ("Draft a reply for this thread:" +:+ newline +:+ newline
              +:+ thread)])
    (MODEL env) 130 f0_6 "Persona Email Writer".

(** A run of the server: the requests are handled one after the other,
    each in the environment it meets; a request whose handler raises leaves
    the world as the handler left it. *)
Fixpoint serve (reqs : list (Env * Call)) (w : World) : World :=
  match reqs with
  | [] => w
  | (env, c) :: reqs' => serve reqs' (handle env c w).2
  end.

(** *** Fake upstreams *)

(** A completion whose first choice says [c]. *)
Definition completion (c : string) : json :=
  JObj {[ "choices" :=
            JArr [JObj {[ "message" := JObj {[ "role" := JStr "assistant";
                                               "content" := JStr c ]} ]}] ]}.

Definition http_ok (data : json) : result Response :=
  ok {| status_code := 200; decoded := ok data |}.

(** An upstream that plays [script], one outcome per call, and refuses the
    connection once the script is over. *)
Definition scripted (script : list (result Response)) : Env :=
  {| environ := ∅;
     upstream := λ n _,
       default (raise RequestException "connection refused") (script !! n);
     clock := 0x41DA5E2B40000000 |}.

(** The first model times out, the second answers "hi". *)
Definition timeout_then_hi : Env :=
  scripted [ raise RequestException "Read timed out.";
             http_ok (completion "hi") ].

(** The first model answers with an empty [choices], the second with "hi". *)
Definition empty_then_hi : Env :=
  scripted [ http_ok (JObj {[ "choices" := JArr [] ]});
             http_ok (completion "hi") ].

(** No model answers with [choices]: a timeout, an error reported by the
    service, a body that is not JSON. *)
Definition never_choices : Env :=
  scripted [ raise RequestException "Read timed out.";
             http_ok (JObj {[ "error" := JObj {[ "code" := JInt 429 ]} ]});
             ok {| status_code := 502;
                   decoded := raise JSONDecodeError "Expecting value" |} ].

(** Every call is answered with "hi". *)
Definition always_hi : Env :=
  {| environ := {[ "OPENROUTER_KEY" := "sk-or-test" ]};
     upstream := λ _ _, http_ok (completion "hi");
     clock := 0x41DA5E2B40000000 |}.

(** The questions "1", "2", ..., "21" asked one after the other. *)
Definition twenty_one_asks : list (Env * Call) :=
  (λ i : nat, (always_hi, PostAsk (JObj {[ "message" := JStr (pretty i) ]})))
    <$> seq 1 21.

(** The chat entry for the question [q] answered with "hi". *)
Definition hi_entry (q : string) : json :=
  JObj {[ "user" := JStr q; "ai" := JStr "hi";
          "ts" := JFloat (clock always_hi) ]}.

Definition mistral : string := "mistralai/mistral-7b-instruct-v0.3".

End Spec.

(** ** The state store seen from outside *)

Module Store.
Import Py App Spec.

(** The three kinds of log entry. *)
Definition chat_record (q : string) (ai : json) (ts : float64) : json :=
  JObj {[ "user" := JStr q; "ai" := ai; "ts" := JFloat ts ]}.
Definition task_record (goal : string) (items : json) (ts : float64) : json :=
  JObj {[ "goal" := JStr goal; "items" := items; "ts" := JFloat ts ]}.
Definition email_record (thread : string) (draft : json) (ts : float64) : json :=
  JObj {[ "thread" := JStr thread; "draft" := draft; "ts" := JFloat ts ]}.

(** A string with no whitespace at either end. *)
Definition trimmed (q : string) : Prop := strip q = q.

(** The replies of /api/ask that do not depend on the upstream. *)
Definition empty_message : Reply :=
  jsonify_with (JObj {[ "error" := JStr "Empty message" ]}) 400.
Definition all_models_failed : Reply :=
  jsonify_with (JObj {[ "error" := JStr "All models failed" ]}) 500.
Definition empty_thread : Reply :=
  jsonify_with (JObj {[ "error" := JStr "Empty thread" ]}) 400.

(** The requests of /api/ask for the first [k] models. *)
Definition chat_requests (env : Env) (q : string) (k : nat) : list Request :=
  chat_request env q <$> take k models.

(** What one request can do to [memory], route by route. *)
Inductive effect : Call → Memory → Memory → Prop :=
  | effect_none c m :
      c ≠ PostHistoryClear → effect c m m
  | effect_asked data m q :
      q ≠ "" → trimmed q →
      effect (PostAsk data) m (set_last_chat (JStr q) m)
  | effect_answered data m q ai ts :
      q ≠ "" → trimmed q →
      effect (PostAsk data) m
        (append_chats (chat_record q ai ts) (set_last_chat (JStr q) m))
  | effect_planned data m goal items ts :
      trimmed goal →
      effect (PostTasks data) m
        (append_tasks (task_record goal items ts) (set_last_tasks items m))
  | effect_thread data m thread :
      thread ≠ "" → trimmed thread →
      effect (PostDraftEmail data) m (set_last_chat (JStr thread) m)
  | effect_drafted data m thread draft ts :
      thread ≠ "" → trimmed thread →
      effect (PostDraftEmail data) m
        (append_emails (email_record thread draft ts)
           (set_last_chat (JStr thread) m))
  | effect_rewarded data m gain :
      gain ∈ [5; 10; 15; 20] →
      effect (PostXp data) m (set_xp (xp m + gain) m)
  | effect_cleared m :
      effect PostHistoryClear m
        (set_history {| chats := []; tasks := []; emails := [] |} m).

(** How many upstream calls a route may make. *)
Definition max_upstream_calls (c : Call) : nat :=
  match c with
  | PostAsk _ => 3
  | PostTasks _ | PostDraftEmail _ => 1
  | PostXp _ | GetHealth | GetHistory | PostHistoryClear => 0
  end.

(** A request as the application addresses OpenRouter. *)
Definition to_openrouter (env : Env) (r : Request) : Prop :=
  url r = "https://openrouter.ai/api/v1/chat/completions"
  ∧ timeout r = 60
  ∧ headers r !! "Authorization" = Some ("Bearer " +:+ OPENROUTER_KEY env)
  ∧ headers r !! "Content-Type" = Some "application/json"
  ∧ ∃ p : gmap string json,
      payload r = JObj p
      ∧ dom p = {[ "model"; "messages"; "max_tokens"; "temperature" ]}.

(** The calls to /api/xp among the requests of a run. *)
Definition is_xp_call (r : Env * Call) : bool :=
  match r.2 with
  | PostXp _ => true
  | _ => false
  end.

Definition xp_calls (reqs : list (Env * Call)) : nat :=
  length (List.filter is_xp_call reqs).

(** [last_chat] is [None] or a stripped, non-empty string. *)
Definition last_chat_ok (m : Memory) : Prop :=
  last_chat m = JNull
  ∨ ∃ q, last_chat m = JStr q ∧ q ≠ "" ∧ trimmed q.

(** The shape of the entries of the three logs. *)
Definition is_chat_record (e : json) : Prop :=
  ∃ q ai ts, e = chat_record q ai ts ∧ q ≠ "" ∧ trimmed q.
Definition is_task_record (e : json) : Prop :=
  ∃ goal items ts, e = task_record goal items ts ∧ trimmed goal.
Definition is_email_record (e : json) : Prop :=
  ∃ thread draft ts, e = email_record thread draft ts ∧ thread ≠ "" ∧ trimmed thread.

Definition records_ok (m : Memory) : Prop :=
  Forall is_chat_record (chats (history m))
  ∧ Forall is_task_record (tasks (history m))
  ∧ Forall is_email_record (emails (history m)).

(** [last_tasks] is the [items] of the newest task record, when there is
    one. *)
Definition last_tasks_logged (m : Memory) : Prop :=
  match last (tasks (history m)) with
  | Some e => ∃ goal ts, e = task_record goal (last_tasks m) ts
  | None => True
  end.

(** Two environments whose upstreams hand the same value to the caller of
    the upstream client, call by call. *)
Definition same_answers (env env' : Env) : Prop :=
  ∀ (n : nat) (req : Request),
    received (upstream env n req) = received (upstream env' n req).


(** An upstream that answers "hi" under the status 500, and one that fails
    the same way at two different places. *)
Definition always_hi_500 : Env :=
  {| environ := environ always_hi;
     upstream := λ _ _, ok {| status_code := 500; decoded := ok (completion "hi") |};
     clock := clock always_hi |}.

(** A run that goes through every route. *)
Definition busy_run : list (Env * Call) :=
  [ (always_hi, PostTasks (JObj ∅));
    (always_hi, PostAsk (JObj {[ "message" := JStr " hello " ]}));
    (never_choices, PostDraftEmail (JObj {[ "thread" := JStr "Can we meet?" ]}));
    (always_hi, PostXp (JObj {[ "action" := JStr "Email" ]}));
    (always_hi, PostXp (JArr []));
    (always_hi, GetHealth);
    (always_hi, PostHistoryClear);
    (always_hi, PostDraftEmail (JObj {[ "thread" := JStr "Ping" ]}));
    (always_hi, PostTasks (JObj {[ "goal" := JStr "  " ]}));
    (always_hi, GetHistory) ].

(** The number of entries in the three logs. *)
Definition entries (m : Memory) : nat :=
  (length (chats (history m)) + length (tasks (history m))
   + length (emails (history m)))%nat.

(** Every model answers with the JSON number 5; the first model answers
    with null and the second with "hi". *)
Definition number_bodies : Env :=
  scripted [ http_ok (JInt 5); http_ok (JInt 5); http_ok (JInt 5) ].

Definition null_then_hi : Env :=
  scripted [ http_ok JNull; http_ok (completion "hi") ].

Definition llama : string := "meta-llama/llama-3.1-8b-instruct".

(** The body [{"message": "hello"}], and [n] requests to /api/ask with it,
    each answered with "hi". *)
Definition hello : json := JObj {[ "message" := JStr "hello" ]}.

Definition asks (n : nat) : list (Env * Call) :=
  replicate n (always_hi, PostAsk hello).

End Store.

(** ** Properties *)

Import Py App Spec.
Import Store.

(** *** The model on small inputs *)

Example strip_spaces : strip "  plan  my day  " = "plan  my day".
Proof. reflexivity. Qed.

Example strip_tabs_newlines :
  strip (String (ascii_of_N 9) (String (ascii_of_N 10) " ")) = "".
Proof. reflexivity. Qed.

Example lower_mixed : lower "TaSk-42" = "task-42".
Proof. reflexivity. Qed.

Example slice_short : slice_from (-20) [1; 2; 3] = [1; 2; 3].
Proof. reflexivity. Qed.

Example slice_long : slice_from (-2) [1; 2; 3] = [2; 3].
Proof. reflexivity. Qed.

Example in_dict : contains "choices" (completion "hi") = ok true.
Proof. reflexivity. Qed.

Example in_list : contains "choices" (JArr [JStr "choices"]) = ok true.
Proof. reflexivity. Qed.

Example in_str : contains "choices" (JStr "no choices here") = ok true.
Proof. reflexivity. Qed.

Example in_none : contains "choices" JNull = raise TypeError "argument is not iterable".
Proof. reflexivity. Qed.

Example first_content_hi : first_content (completion "hi") = ok (JStr "hi").
Proof. reflexivity. Qed.

Example bearer_header :
  _headers always_hi "Persona Chat" !! "Authorization" = Some "Bearer sk-or-test".
Proof. reflexivity. Qed.

Example default_model : MODEL never_choices = "meta-llama/llama-3.1-8b-instruct".
Proof. reflexivity. Qed.

(** After 21 answered questions the log holds 21 entries and
    GET /api/history shows the last 20, the second question first. *)
Example history_after_21_asks :
  let w := serve twenty_one_asks boot in
  length (chats (history (mem w))) = 21%nat
  ∧ (get_history w).1
      = ok (jsonify (JObj {[ "chats" := JArr (hi_entry ∘ pretty <$> seq 2 20);
                             "tasks" := JArr [];
                             "emails" := JArr [] ]})).
Proof. vm_compute. split; reflexivity. Qed.

(** *** Running handlers *)

Lemma run_bind {A B} (m : M A) (f : A → M B) (w : World) :
  (m ≫= f) w =
  match m w with
  | (inr a, w') => f a w'
  | (inl e, w') => (inl e, w')
  end.
Proof. reflexivity. Qed.

Lemma run_bind_val {A B} (m : M A) (f : A → M B) (w w' : World) (a : A) :
  m w = (ok a, w') → (m ≫= f) w = f a w'.
Proof. intros H. by rewrite run_bind, H. Qed.

Lemma run_bind_exn {A B} (m : M A) (f : A → M B) (w w' : World) (e : exn) :
  m w = (inl e, w') → (m ≫= f) w = (inl e, w').
Proof. intros H. by rewrite run_bind, H. Qed.

Lemma run_ret {A} (a : A) (w : World) : (mret a : M A) w = (ok a, w).
Proof. reflexivity. Qed.

Lemma run_lift {A} (r : result A) (w : World) : lift r w = (r, w).
Proof. reflexivity. Qed.

Lemma run_read_memory (w : World) : read_memory w = (ok (mem w), w).
Proof. reflexivity. Qed.

Lemma run_write_memory (f : Memory → Memory) (w : World) :
  write_memory f w = (ok (), with_memory f w).
Proof. reflexivity. Qed.

(** *** The upstream client *)

Lemma run_call_openrouter env messages model max_tokens temperature title w :
  call_openrouter env messages model max_tokens temperature title w =
  (let req := completion_request env messages model max_tokens temperature title in
   (ok (received (upstream env (length (sent w)) req)), after_sending [req] w)).
Proof.
  unfold call_openrouter, try_except, received. rewrite run_bind.
  unfold requests_post. cbn beta iota.
  destruct (upstream env _ _) as [e | r]; [reflexivity |].
  rewrite run_bind. unfold json_. rewrite run_lift.
  destruct (decoded r) as [e | data]; reflexivity.
Qed.

(** C5. Whatever the arguments, the state and the outcome of the transport,
    [call_openrouter] returns a value and never raises: when
    [requests.post] or [r.json()] raises an exception [e] the value is
    [{"error": str(e)}], and otherwise it is the decoded body itself,
    unchanged, whether or not it has the key [choices].  It sends exactly one
    request and leaves [memory] alone. *)
Theorem call_openrouter_never_raises :
  ∀ env messages model max_tokens temperature title w,
    let req := completion_request env messages model max_tokens temperature title in
    ∃ v : json,
      call_openrouter env messages model max_tokens temperature title w
        = (ok v, after_sending [req] w)
      ∧ match upstream env (length (sent w)) req with
        | inl e => v = JObj {[ "error" := JStr (exn_str e) ]}
        | inr r =>
            match decoded r with
            | inl e => v = JObj {[ "error" := JStr (exn_str e) ]}
            | inr data => v = data
            end
        end.
Proof.
  intros env messages model max_tokens temperature title w req.
  exists (received (upstream env (length (sent w)) req)). split.
  - apply run_call_openrouter.
  - unfold received, error_value.
    destruct (upstream env _ req) as [e | r]; [reflexivity |].
    destruct (decoded r); reflexivity.
Qed.

(** *** Blank strings *)

Lemma rstrip_empty (s : string) : rstrip s = "" ↔ blank s = true.
Proof.
  induction s as [| a s IH]; simpl; [done |].
  destruct (rstrip s) as [| b r].
  - destruct (isspace a); simpl.
    + split; [intros _; by apply IH | done].
    + split; [done | intros H; discriminate H].
  - split; [done |]. intros [_ H]%andb_prop. by apply IH in H.
Qed.

Lemma blank_lstrip (s : string) : blank (lstrip s) = blank s.
Proof.
  induction s as [| a s IH]; simpl; [done |].
  destruct (isspace a) eqn:Ha; simpl; [done |]. by rewrite Ha.
Qed.

Lemma strip_empty (s : string) : strip s = "" ↔ blank s = true.
Proof. unfold strip. by rewrite rstrip_empty, blank_lstrip. Qed.

Lemma eqb_strip_blank (s : string) : String.eqb (strip s) "" = blank s.
Proof.
  destruct (blank s) eqn:Hb.
  - apply strip_empty in Hb. by rewrite Hb.
  - apply String.eqb_neq. intros H%strip_empty. congruence.
Qed.

(** *** /api/ask: the empty message *)

Lemma run_bind_ok {A B} (a : A) (f : A → M B) (w : World) :
  (lift (ok a) ≫= f) w = f a w.
Proof. reflexivity. Qed.

(** [ask] on a dict, past the decoding of its argument. *)
Lemma run_ask env (kvs : gmap string json) (s : string) w :
  default (JStr "") (kvs !! "message") = JStr s →
  ask env (JObj kvs) w =
  if blank s
  then (ok (jsonify_with (JObj {[ "error" := JStr "Empty message" ]}) 400), w)
  else for_return models (ask_attempt env (strip s))
         (mret (jsonify_with (JObj {[ "error" := JStr "All models failed" ]}) 500))
         (with_memory (set_last_chat (JStr (strip s))) w).
Proof.
  intros Hs. unfold ask, get. rewrite run_bind_ok, Hs. unfold strip_.
  rewrite run_bind_ok, eqb_strip_blank. by destruct (blank s).
Qed.

(** C4. When the body of a request to /api/ask has no [message], or has a
    [message] that is a string of whitespace only (the empty string
    included), [ask] answers 400 with [{"error": "Empty message"}] and the
    world is what it was: nothing was sent upstream, and neither the history
    nor the rest of [memory] changed. *)
Theorem ask_blank_message :
  ∀ env (kvs : gmap string json) w,
    (kvs !! "message" = None
     ∨ ∃ s, kvs !! "message" = Some (JStr s) ∧ blank s = true) →
    ask env (JObj kvs) w
      = (ok (jsonify_with (JObj {[ "error" := JStr "Empty message" ]}) 400), w).
Proof.
  intros env kvs w [H | (s & H & Hs)].
  - by rewrite (run_ask env kvs "") by (by rewrite H).
  - by rewrite (run_ask env kvs s), Hs by (by rewrite H).
Qed.

Lemma ask_blank_message_witness :
  let kvs : gmap string json := {[ "message" := JStr "   " ]} in
  (kvs !! "message" = None
   ∨ ∃ s, kvs !! "message" = Some (JStr s) ∧ blank s = true)
  ∧ ask timeout_then_hi (JObj kvs) boot
      = (ok (jsonify_with (JObj {[ "error" := JStr "Empty message" ]}) 400),
         boot).
Proof.
  intros kvs.
  assert (H : kvs !! "message" = None
              ∨ ∃ s, kvs !! "message" = Some (JStr s) ∧ blank s = true).
  { right. exists "   ". split; reflexivity. }
  split; [exact H |].
  exact (ask_blank_message timeout_then_hi kvs boot H).
Defined.

(** *** /api/ask: the fallback loop *)

Lemma after_sending_nil w : after_sending [] w = w.
Proof. destruct w. unfold after_sending. simpl. by rewrite app_nil_r. Qed.

Lemma after_sending_cons r rs w :
  after_sending rs (after_sending [r] w) = after_sending (r :: rs) w.
Proof. unfold after_sending. simpl. by rewrite <- app_assoc. Qed.

Lemma length_sent_after_sending rs w :
  length (sent (after_sending rs w)) = (length (sent w) + length rs)%nat.
Proof. unfold after_sending. simpl. apply length_app. Qed.

(** One turn of the loop. *)
Lemma run_ask_attempt env q m w :
  ask_attempt env q m w =
  let resp := attempt env q (length (sent w)) m in
  let w1 := after_sending [chat_request env q m] w in
  match contains "choices" resp with
  | inl e => (inl e, w1)
  | inr false => (ok None, w1)
  | inr true =>
      match first_content resp with
      | inl e => (inl e, w1)
      | inr ai =>
          (ok (Some (jsonify (JObj {[ "reply" := ai; "model" := JStr m ]}))),
           with_memory
             (append_chats (JObj {[ "user" := JStr q; "ai" := ai;
                                    "ts" := JFloat (clock env) ]})) w1)
      end
  end.
Proof.
  unfold ask_attempt.
  erewrite run_bind_val by apply run_call_openrouter.
  fold (chat_request env q m). fold (attempt env q (length (sent w)) m).
  destruct (contains "choices" _) as [e | [|]]; [reflexivity | | reflexivity].
  rewrite run_bind_ok.
  destruct (first_content _) as [e | ai]; reflexivity.
Qed.

(** The loop walks past every model whose response lacks [choices]. *)
Lemma for_return_misses env q orelse (rest : list string) :
  ∀ (ms : list string) w,
    (∀ (j : nat) (m : string), ms !! j = Some m →
       contains "choices" (attempt env q (length (sent w) + j) m) = ok false) →
    for_return (ms ++ rest) (ask_attempt env q) orelse w
      = for_return rest (ask_attempt env q) orelse
          (after_sending (chat_request env q <$> ms) w).
Proof.
  induction ms as [| m ms IH]; intros w Hmiss; simpl.
  - by rewrite after_sending_nil.
  - pose proof (Hmiss 0%nat m eq_refl) as H0. rewrite Nat.add_0_r in H0.
    erewrite run_bind_val by (rewrite run_ask_attempt; cbn zeta; by rewrite H0).
    rewrite IH, after_sending_cons; [reflexivity |].
    intros j m' Hj. rewrite length_sent_after_sending. simpl.
    replace (length (sent w) + 1 + j)%nat with (length (sent w) + S j)%nat by lia.
    by apply Hmiss.
Qed.

Lemma getitem_int_0_cons (x : json) (xs : list json) :
  getitem_int (JArr (x :: xs)) 0 = ok x.
Proof.
  unfold getitem_int, index_pos.
  replace (0 <? 0) with false by reflexivity.
  replace ((0 <=? 0) && (0 <? Z.of_nat (length (x :: xs)))) with true; [done |].
  symmetry. apply andb_true_intro. split; [done |].
  apply Z.ltb_lt. simpl length. lia.
Qed.

Lemma getitem_int_0_nil : getitem_int (JArr []) 0 = raise IndexError "list index out of range".
Proof. reflexivity. Qed.

Lemma result_bind_ok {A B} (a : A) (f : A → result B) : ok a ≫= f = f a.
Proof. reflexivity. Qed.

Lemma getitem_str_obj (kvs : gmap string json) (key : string) (x : json) :
  kvs !! key = Some x → getitem_str (JObj kvs) key = ok x.
Proof. intros H. unfold getitem_str. by rewrite H. Qed.

(** The shape of a usable completion. *)
Lemma first_content_ok (resp choice msg : gmap string json) rest ai :
  resp !! "choices" = Some (JArr (JObj choice :: rest)) →
  choice !! "message" = Some (JObj msg) →
  msg !! "content" = Some ai →
  contains "choices" (JObj resp) = ok true
  ∧ first_content (JObj resp) = ok ai.
Proof.
  intros Hc Hm Ha. split.
  - unfold contains. by rewrite Hc.
  - unfold first_content.
    rewrite (getitem_str_obj _ _ _ Hc), result_bind_ok.
    rewrite getitem_int_0_cons, result_bind_ok.
    rewrite (getitem_str_obj _ _ _ Hm), result_bind_ok.
    by apply getitem_str_obj.
Qed.

(** X19. On a message that is a string and not blank: when the test
    ["choices" in resp] is False on the responses of the models before the
    [k]-th, and the [k]-th response is an object whose [choices] is a
    non-empty list whose first element carries a message with a content,
    [ask] answers 200 with that content as [reply] and the [k]-th model as
    [model], has sent exactly one request for each of the first [k+1]
    models, in order, has set [last_chat] and has appended the exchange to
    the chat log.  With [k = 1]: the test is False on the first response,
    the second is usable, two requests are sent and the reply carries the
    second model's name. *)
Theorem ask_stops_at_first_choices :
  ∀ env (kvs : gmap string json) (s : string) w
    (k : nat) (m : string) (resp choice msg : gmap string json)
    (rest : list json) (ai : json),
    kvs !! "message" = Some (JStr s) →
    blank s = false →
    models !! k = Some m →
    (∀ (j : nat) (m' : string), (j < k)%nat → models !! j = Some m' →
       contains "choices" (attempt env (strip s) (length (sent w) + j) m')
         = ok false) →
    attempt env (strip s) (length (sent w) + k) m = JObj resp →
    resp !! "choices" = Some (JArr (JObj choice :: rest)) →
    choice !! "message" = Some (JObj msg) →
    msg !! "content" = Some ai →
    ask env (JObj kvs) w
      = (ok (jsonify (JObj {[ "reply" := ai; "model" := JStr m ]})),
         {| mem := append_chats
                     (JObj {[ "user" := JStr (strip s); "ai" := ai;
                              "ts" := JFloat (clock env) ]})
                     (set_last_chat (JStr (strip s)) (mem w));
            sent := sent w ++ (chat_request env (strip s) <$> take (S k) models) |}).
Proof.
  intros env kvs s w k m resp choice msg rest ai Hs Hb Hk Hmiss Hresp Hc Hm Ha.
  rewrite (run_ask env kvs s), Hb by (by rewrite Hs).
  pose proof (lookup_lt_Some _ _ _ Hk) as Hlen.
  rewrite <- (take_drop_middle models k m Hk) at 1.
  rewrite for_return_misses.
  2:{ intros j m' [Hj ?]%lookup_take_Some. by apply Hmiss. }
  destruct (first_content_ok resp choice msg rest ai Hc Hm Ha) as [Hin Hai].
  cbn [for_return].
  erewrite run_bind_val.
  2:{ rewrite run_ask_attempt. cbn zeta.
      rewrite length_sent_after_sending, length_fmap, length_take.
      rewrite (Nat.min_l k (length models)) by lia.
      change (sent (with_memory _ w)) with (sent w).
      rewrite Hresp, Hin, Hai. reflexivity. }
  cbn beta iota. rewrite run_ret. f_equal.
  rewrite (take_S_r _ _ _ Hk), fmap_app.
  unfold with_memory, after_sending. simpl. by rewrite <- app_assoc.
Qed.

Lemma ask_stops_at_first_choices_witness :
  let s := " hello " in
  let kvs : gmap string json := {[ "message" := JStr s ]} in
  let msg : gmap string json :=
    {[ "role" := JStr "assistant"; "content" := JStr "hi" ]} in
  let choice : gmap string json := {[ "message" := JObj msg ]} in
  let resp : gmap string json := {[ "choices" := JArr [JObj choice] ]} in
  (kvs !! "message" = Some (JStr s)
   ∧ blank s = false
   ∧ models !! 1%nat = Some mistral
   ∧ (∀ (j : nat) (m' : string), (j < 1)%nat → models !! j = Some m' →
        contains "choices"
          (attempt timeout_then_hi (strip s) (length (sent boot) + j) m')
          = ok false)
   ∧ attempt timeout_then_hi (strip s) (length (sent boot) + 1) mistral
       = JObj resp
   ∧ resp !! "choices" = Some (JArr [JObj choice])
   ∧ choice !! "message" = Some (JObj msg)
   ∧ msg !! "content" = Some (JStr "hi"))
  ∧ ask timeout_then_hi (JObj kvs) boot
      = (ok (jsonify (JObj {[ "reply" := JStr "hi"; "model" := JStr mistral ]})),
         {| mem := append_chats
                     (JObj {[ "user" := JStr "hello"; "ai" := JStr "hi";
                              "ts" := JFloat (clock timeout_then_hi) ]})
                     (set_last_chat (JStr "hello") memory);
            sent := chat_request timeout_then_hi "hello" <$> take 2 models |}).
Proof.
  intros s kvs msg choice resp.
  assert (Hmiss : ∀ (j : nat) (m' : string), (j < 1)%nat → models !! j = Some m' →
            contains "choices"
              (attempt timeout_then_hi (strip s) (length (sent boot) + j) m')
              = ok false).
  { intros [| j] m' Hj Hm'; [| lia]. reflexivity. }
  split.
  - repeat split; try reflexivity. exact Hmiss.
  - apply (ask_stops_at_first_choices timeout_then_hi kvs s boot 1 mistral
             resp choice msg [] (JStr "hi"));
      first [exact Hmiss | reflexivity].
Defined.

(** With an upstream whose first response has an empty [choices] list and
    whose second response has a usable one, the second response is the
    first one with a non-empty [choices] list, yet [ask] does not answer
    with it: the rule "stops at the first response containing a non-empty
    [choices] list" does not hold of the loop. *)
Lemma stops_at_first_nonempty_choices_fails :
  ¬ stops_at_first_nonempty_choices empty_then_hi "hello" boot.
Proof.
  intros H.
  specialize (H 1%nat mistral (JStr "hi") eq_refl).
  assert (Hbefore : ∀ (j : nat) (m' : string), (j < 1)%nat → models !! j = Some m' →
            nonempty_choices
              (attempt empty_then_hi (strip "hello") (length (sent boot) + j) m')
              = false).
  { intros [| j] m' Hj Hm'; [| lia]. reflexivity. }
  specialize (H Hbefore eq_refl eq_refl).
  vm_compute in H. destruct H as [H _]. discriminate H.
Qed.

(** X20. On a message that is a string and not blank: when the test
    ["choices" in resp] is False on each of the three responses (an object
    without the key, which is what a captured fault of the transport is, or
    a list or a string that does not hold it), [ask] answers 500 with
    exactly [{"error": "All models failed"}], whatever the three failures
    were; it has sent exactly three requests, one per model in the order of
    the list, and the history is what it was (of [memory] only [last_chat]
    changed). *)
Theorem ask_all_models_failed :
  ∀ env (kvs : gmap string json) (s : string) w,
    kvs !! "message" = Some (JStr s) →
    blank s = false →
    (∀ (j : nat) (m : string), models !! j = Some m →
       contains "choices" (attempt env (strip s) (length (sent w) + j) m)
         = ok false) →
    ask env (JObj kvs) w
      = (ok (jsonify_with (JObj {[ "error" := JStr "All models failed" ]}) 500),
         {| mem := set_last_chat (JStr (strip s)) (mem w);
            sent := sent w ++ (chat_request env (strip s) <$> models) |})
    ∧ length (chat_request env (strip s) <$> models) = 3%nat.
Proof.
  intros env kvs s w Hs Hb Hmiss. split; [| reflexivity].
  rewrite (run_ask env kvs s), Hb by (by rewrite Hs).
  rewrite <- (app_nil_r models) at 1.
  rewrite for_return_misses by exact Hmiss.
  reflexivity.
Qed.

Lemma ask_all_models_failed_witness :
  let s := "hello" in
  let kvs : gmap string json := {[ "message" := JStr s ]} in
  (kvs !! "message" = Some (JStr s)
   ∧ blank s = false
   ∧ (∀ (j : nat) (m : string), models !! j = Some m →
        contains "choices"
          (attempt never_choices (strip s) (length (sent boot) + j) m)
          = ok false))
  ∧ ask never_choices (JObj kvs) boot
      = (ok (jsonify_with (JObj {[ "error" := JStr "All models failed" ]}) 500),
         {| mem := set_last_chat (JStr "hello") memory;
            sent := chat_request never_choices "hello" <$> models |}).
Proof.
  intros s kvs.
  assert (Hmiss : ∀ (j : nat) (m : string), models !! j = Some m →
            contains "choices"
              (attempt never_choices (strip s) (length (sent boot) + j) m)
              = ok false).
  { intros [| [| [| j]]] m Hm; [reflexivity .. | discriminate Hm]. }
  split.
  - repeat split; try reflexivity. exact Hmiss.
  - apply (ask_all_models_failed never_choices kvs s boot); 
      first [exact Hmiss | reflexivity].
Defined.

(** *** /api/ask: responses the loop does not survive *)

(** C1. The first model answers [{"choices": []}] and the second with a
    usable completion "hi", so the second response is the first one that
    contains a non-empty [choices] list.  [ask] does not answer with it: the
    guard passes on the first response, the index [0] raises IndexError,
    one request was sent and nothing was logged.  Likewise when the first
    response is the body [null], which lacks [choices]: the membership test
    raises TypeError after that one call. *)
Theorem ask_raises_before_second_model :
  (nonempty_choices (attempt empty_then_hi "hello" 0 llama) = false
   ∧ nonempty_choices (attempt empty_then_hi "hello" 1 mistral) = true
   ∧ first_content (attempt empty_then_hi "hello" 1 mistral) = ok (JStr "hi")
   ∧ ask empty_then_hi hello boot
       = (raise IndexError "list index out of range",
          {| mem := set_last_chat (JStr "hello") memory;
             sent := [chat_request empty_then_hi "hello" llama] |}))
  ∧ (attempt null_then_hi "hello" 0 llama = JNull
     ∧ first_content (attempt null_then_hi "hello" 1 mistral) = ok (JStr "hi")
     ∧ ∃ e : exn,
         exn_class e = TypeError
         ∧ ask null_then_hi hello boot
             = (inl e,
                {| mem := set_last_chat (JStr "hello") memory;
                   sent := [chat_request null_then_hi "hello" llama] |})).
Proof.
  split; [by repeat split |].
  split; [reflexivity |]. split; [reflexivity |].
  eexists. split; [| reflexivity]. reflexivity.
Qed.

(** C2. Each of the three models answers with the JSON body [5], so no
    response contains [choices].  [ask] does not answer 500 "All models
    failed" after three calls: the membership test on the first response
    raises TypeError, after one call. *)
Theorem ask_raises_on_number_bodies :
  imap (λ j m, attempt number_bodies "hello" j m) models = [JInt 5; JInt 5; JInt 5]
  ∧ ∃ e : exn,
      exn_class e = TypeError
      ∧ ask number_bodies hello boot
          = (inl e,
             {| mem := set_last_chat (JStr "hello") memory;
                sent := [chat_request number_bodies "hello" llama] |}).
Proof.
  split; [reflexivity |].
  eexists. split; [| reflexivity]. reflexivity.
Qed.

(** *** /api/xp *)

Lemma run_xp_update (kvs : gmap string json) w :
  xp_update (JObj kvs) w =
  match lower_ (or_ (default JNull (kvs !! "action")) (JStr "chat")) with
  | inl e => (inl e, w)
  | inr action =>
      let gain := default 5 (gains !! action) in
      (ok (jsonify (JObj {[ "action" := JStr action;
                            "xp_gained" := JInt gain;
                            "total_xp" := JInt (xp (mem w) + gain) ]})),
       with_memory (set_xp (xp (mem w) + gain)) w)
  end.
Proof.
  unfold xp_update, get. rewrite run_bind_ok.
  destruct (lower_ _) as [e | action]; reflexivity.
Qed.

Lemma gains_unrecognized (label : string) :
  label ≠ "chat" → label ≠ "task" → label ≠ "email" → gains !! label = None.
Proof.
  intros Hc Ht He. unfold gains.
  rewrite !lookup_insert_ne by done. by apply lookup_singleton_ne.
Qed.

Lemma truthy_str (s : string) : s ≠ "" → truthy (JStr s) = true.
Proof. intros H. simpl. by apply negb_true_iff, String.eqb_neq. Qed.

(** C3 (amended). On a body that is an object, /api/xp takes as label the
    given string lower-cased when [action] is a non-empty string, and "chat"
    when [action] is absent or falsy (the empty string, null, 0, false, an
    empty list or object).  The gain is the entry of the table
    {"chat": 10, "task": 20, "email": 15} for the label, 5 when the label is
    not in the table; [xp] grows by exactly the gain and nothing else
    changes; the reply is 200 with the label, the gain and the new total.
    So "task" adds 20, a label outside the table adds 5, and no action adds
    10. *)
Theorem xp_update_gain :
  ∀ (kvs : gmap string json) w (label : string),
    (kvs !! "action" = None ∧ label = "chat")
    ∨ (∃ v, kvs !! "action" = Some v ∧ truthy v = false ∧ label = "chat")
    ∨ (∃ s, kvs !! "action" = Some (JStr s) ∧ s ≠ "" ∧ label = lower s) →
    let gain := default 5 (gains !! label) in
    xp_update (JObj kvs) w
      = (ok (jsonify (JObj {[ "action" := JStr label;
                              "xp_gained" := JInt gain;
                              "total_xp" := JInt (xp (mem w) + gain) ]})),
         {| mem := set_xp (xp (mem w) + gain) (mem w); sent := sent w |})
    ∧ (label = "chat" → gain = 10)
    ∧ (label = "task" → gain = 20)
    ∧ (label = "email" → gain = 15)
    ∧ (label ≠ "chat" → label ≠ "task" → label ≠ "email" → gain = 5).
Proof.
  intros kvs w label H gain. split; [| repeat split].
  - rewrite run_xp_update.
    destruct H as [[-> ->] | [(v & -> & Hv & ->) | (s & -> & Hs & ->)]];
      unfold or_; simpl default.
    + reflexivity.
    + rewrite Hv. reflexivity.
    + rewrite (truthy_str s Hs). reflexivity.
  - intros Hl. unfold gain. by rewrite Hl.
  - intros Hl. unfold gain. by rewrite Hl.
  - intros Hl. unfold gain. by rewrite Hl.
  - intros Hc Ht He. unfold gain. by rewrite gains_unrecognized.
Qed.

Lemma xp_update_gain_witness :
  let kvs : gmap string json := {[ "action" := JStr "TASK" ]} in
  ((kvs !! "action" = None ∧ "task" = "chat")
   ∨ (∃ v, kvs !! "action" = Some v ∧ truthy v = false ∧ "task" = "chat")
   ∨ (∃ s, kvs !! "action" = Some (JStr s) ∧ s ≠ "" ∧ "task" = lower s))
  ∧ xp_update (JObj kvs) boot
      = (ok (jsonify (JObj {[ "action" := JStr "task";
                              "xp_gained" := JInt 20;
                              "total_xp" := JInt 520 ]})),
         {| mem := set_xp 520 memory; sent := [] |}).
Proof.
  intros kvs.
  assert (H : (kvs !! "action" = None ∧ "task" = "chat")
     ∨ (∃ v, kvs !! "action" = Some v ∧ truthy v = false ∧ "task" = "chat")
     ∨ (∃ s, kvs !! "action" = Some (JStr s) ∧ s ≠ "" ∧ "task" = lower s)).
  { right. right. exists "TASK". split; [reflexivity |]. split; [discriminate | reflexivity]. }
  split; [exact H |].
  exact (proj1 (xp_update_gain kvs boot "task" H)).
Defined.

(** C3 (as stated). On the body [{"action": ""}] the given string
    lower-cased is the empty string, which is not in the table, so the rule
    as stated gives the label "" and the gain 5; [xp_update] answers with
    the label "chat" and the gain 10. *)
Lemma xp_as_stated_fails :
  ¬ xp_as_stated {[ "action" := JStr "" ]} boot.
Proof.
  intros H. specialize (H "" eq_refl).
  vm_compute in H. discriminate H.
Qed.

(** *** /api/history *)

(** [l[-n:]] for a positive [n] ([l[-0:]] is the whole list). *)
Lemma slice_from_last {A} (n : nat) (l : list A) :
  (0 < n)%nat →
  slice_from (- Z.of_nat n) l = drop (length l - n)%nat l.
Proof.
  intros Hn. unfold slice_from.
  replace (- Z.of_nat n <? 0) with true by (symmetry; apply Z.ltb_lt; lia).
  f_equal. lia.
Qed.

Lemma most_recent_drop {A} (n : nat) (l : list A) :
  most_recent n l (drop (length l - n)%nat l).
Proof.
  split.
  - rewrite length_drop. lia.
  - intros i Hi. rewrite length_drop in *. rewrite lookup_drop. f_equal. lia.
Qed.

(** C6. Whatever the three logs hold, GET /api/history answers 200 with,
    under each of [chats], [tasks] and [emails], the last min(20, length)
    entries of the log in the order they were appended, the oldest of them
    first; the world is unchanged, so the logs themselves are not cut. *)
Theorem get_history_most_recent_20 :
  ∀ w : World,
    let h := history (mem w) in
    ∃ cs ts es : list json,
      get_history w
        = (ok (jsonify (JObj {[ "chats" := JArr cs; "tasks" := JArr ts;
                                "emails" := JArr es ]})), w)
      ∧ cs = drop (length (chats h) - 20)%nat (chats h)
      ∧ ts = drop (length (tasks h) - 20)%nat (tasks h)
      ∧ es = drop (length (emails h) - 20)%nat (emails h)
      ∧ most_recent 20 (chats h) cs
      ∧ most_recent 20 (tasks h) ts
      ∧ most_recent 20 (emails h) es.
Proof.
  intros w h.
  exists (drop (length (chats h) - 20)%nat (chats h)),
         (drop (length (tasks h) - 20)%nat (tasks h)),
         (drop (length (emails h) - 20)%nat (emails h)).
  split; [| repeat split; try reflexivity; apply most_recent_drop].
  unfold get_history. erewrite run_bind_val by apply run_read_memory.
  cbv zeta. rewrite run_ret. fold h.
  change (-20) with (- Z.of_nat 20).
  by rewrite !(slice_from_last 20) by lia.
Qed.

(** *** The history is append-only *)

#[local] Instance extends_refl : Reflexive extends.
Proof. intros h. by repeat split. Qed.

#[local] Instance extends_trans : Transitive extends.
Proof.
  intros h1 h2 h3 (? & ? & ?) (? & ? & ?).
  repeat split; by etrans.
Qed.

Lemma append_only_ret {A} (a : A) : append_only (mret a).
Proof. intros w. reflexivity. Qed.

Lemma append_only_lift {A} (r : result A) : append_only (lift r).
Proof. intros w. reflexivity. Qed.

Lemma append_only_read : append_only read_memory.
Proof. intros w. reflexivity. Qed.

Lemma append_only_write (f : Memory → Memory) :
  (∀ m, extends (history m) (history (f m))) → append_only (write_memory f).
Proof. intros H w. apply H. Qed.

Lemma append_only_bind {A B} (m : M A) (f : A → M B) :
  append_only m → (∀ a, append_only (f a)) → append_only (m ≫= f).
Proof.
  intros Hm Hf w. rewrite run_bind. specialize (Hm w).
  destruct (m w) as [[e | a] w1]; [exact Hm |].
  etrans; [exact Hm | apply Hf].
Qed.

Lemma append_only_try_except {A} (body : M A) (handler : exn → M A) :
  append_only body → (∀ e, append_only (handler e)) →
  append_only (try_except body handler).
Proof.
  intros Hb Hh w. unfold try_except. specialize (Hb w).
  destruct (body w) as [[e | a] w1]; [| exact Hb].
  etrans; [exact Hb | apply Hh].
Qed.

Lemma append_only_for_return {A B} (l : list A) (body : A → M (option B))
    (orelse : M B) :
  (∀ x, append_only (body x)) → append_only orelse →
  append_only (for_return l body orelse).
Proof.
  intros Hb Ho. induction l as [| x l IH]; [exact Ho |].
  cbn [for_return]. apply append_only_bind; [apply Hb |].
  intros [b |]; [apply append_only_ret | exact IH].
Qed.

Lemma append_only_requests_post env req : append_only (requests_post env req).
Proof. intros w. reflexivity. Qed.

Lemma append_only_call_openrouter env messages model max_tokens temperature title :
  append_only (call_openrouter env messages model max_tokens temperature title).
Proof.
  intros w. rewrite run_call_openrouter. reflexivity.
Qed.

Lemma extends_append_chats entry m : extends (history m) (history (append_chats entry m)).
Proof. repeat split; simpl; [by apply prefix_app_r | done | done]. Qed.

Lemma extends_append_tasks entry m : extends (history m) (history (append_tasks entry m)).
Proof. repeat split; simpl; [done | by apply prefix_app_r | done]. Qed.

Lemma extends_append_emails entry m : extends (history m) (history (append_emails entry m)).
Proof. repeat split; simpl; [done | done | by apply prefix_app_r]. Qed.

Ltac append_only_step :=
  lazymatch goal with
  | |- append_only (_ ≫= _) => apply append_only_bind; [| intros ?]
  | |- append_only (mret _) => apply append_only_ret
  | |- append_only (lift _) => apply append_only_lift
  | |- append_only read_memory => apply append_only_read
  | |- append_only (time_time _) => apply append_only_ret
  | |- append_only (call_openrouter _ _ _ _ _ _) =>
      apply append_only_call_openrouter
  | |- append_only (write_memory (append_chats _)) =>
      apply append_only_write, extends_append_chats
  | |- append_only (write_memory (append_tasks _)) =>
      apply append_only_write, extends_append_tasks
  | |- append_only (write_memory (append_emails _)) =>
      apply append_only_write, extends_append_emails
  | |- append_only (write_memory _) =>
      apply append_only_write; intros ?; reflexivity
  | |- append_only (for_return _ _ _) =>
      apply append_only_for_return; [intros ? |]
  | |- append_only (if ?b then _ else _) => destruct b
  end.

Lemma append_only_ask env data : append_only (ask env data).
Proof. unfold ask, ask_attempt. repeat append_only_step. Qed.

Lemma append_only_create_tasks env data : append_only (create_tasks env data).
Proof. unfold create_tasks. repeat append_only_step. Qed.

Lemma append_only_draft_email env data : append_only (draft_email env data).
Proof. unfold draft_email. repeat append_only_step. Qed.

Lemma append_only_xp_update data : append_only (xp_update data).
Proof. unfold xp_update. cbv zeta. repeat append_only_step. Qed.

Lemma append_only_health env : append_only (health env).
Proof. unfold health. repeat append_only_step. Qed.

Lemma append_only_get_history : append_only get_history.
Proof. unfold get_history. cbv zeta. repeat append_only_step. Qed.

Lemma append_only_handle env (c : Call) :
  c ≠ PostHistoryClear → append_only (handle env c).
Proof.
  intros Hc. destruct c; cbn [handle].
  - apply append_only_ask.
  - apply append_only_create_tasks.
  - apply append_only_draft_email.
  - apply append_only_xp_update.
  - apply append_only_health.
  - apply append_only_get_history.
  - done.
Qed.

(** C7. Whatever the request, its body, the upstream and the state, every
    route but /api/history/clear leaves each of the three logs as a prefix
    of what it is afterwards: entries are only appended, none is changed or
    removed, also when the handler raises.  /api/history/clear leaves the
    three logs empty, and a GET /api/history that follows it answers with
    empty [chats], [tasks] and [emails]. *)
Theorem history_append_only :
  ∀ (env : Env) (c : Call) (w : World),
    let w' := (handle env c w).2 in
    match c with
    | PostHistoryClear =>
        (handle env c w).1 = ok (jsonify (JObj {[ "ok" := JBool true ]}))
        ∧ history (mem w') = {| chats := []; tasks := []; emails := [] |}
        ∧ (get_history w').1
            = ok (jsonify (JObj {[ "chats" := JArr []; "tasks" := JArr [];
                                   "emails" := JArr [] ]}))
    | _ => extends (history (mem w)) (history (mem w'))
    end.
Proof.
  intros env c w w'. subst w'.
  destruct c; try (by apply append_only_handle).
  repeat split; reflexivity.
Qed.

(** Over a run of the server with no call to /api/history/clear the logs
    only grow. *)
Lemma serve_append_only (reqs : list (Env * Call)) :
  Forall (λ r, r.2 ≠ PostHistoryClear) reqs →
  ∀ w, extends (history (mem w)) (history (mem (serve reqs w))).
Proof.
  induction 1 as [| [env c] reqs Hc _ IH]; intros w; [reflexivity |].
  cbn [serve]. etrans; [| apply IH]. by apply append_only_handle.
Qed.

(** *** /api/tasks and /api/draft-email *)

(** [create_tasks] on a dict whose [goal], or the default, is a string. *)
Lemma run_create_tasks env (kvs : gmap string json) (s : string) w :
  default (JStr "Plan my day effectively") (kvs !! "goal") = JStr s →
  create_tasks env (JObj kvs) w =
  let goal := strip s in
  let resp := received (upstream env (length (sent w)) (tasks_request env goal)) in
  let w1 := after_sending [tasks_request env goal] w in
  match contains "choices" resp with
  | inl e => (inl e, w1)
  | inr false => (ok (jsonify_with (JObj {[ "error" := resp ]}) 400), w1)
  | inr true =>
      match first_content resp with
      | inl e => (inl e, w1)
      | inr items =>
          (ok (jsonify (JObj {[ "tasks" := items ]})),
           with_memory
             (λ m, append_tasks
                     (JObj {[ "goal" := JStr goal; "items" := items;
                              "ts" := JFloat (clock env) ]})
                     (set_last_tasks items m)) w1)
      end
  end.
Proof.
  intros Hs. unfold create_tasks, get. rewrite run_bind_ok, Hs. unfold strip_.
  rewrite run_bind_ok.
  erewrite run_bind_val by apply run_call_openrouter.
  fold (tasks_request env (strip s)). cbv zeta.
  destruct (contains "choices" _) as [e | [|]]; [reflexivity | | reflexivity].
  rewrite run_bind_ok.
  destruct (first_content _) as [e | items]; reflexivity.
Qed.

(** [draft_email] on a dict whose [thread] is a string. *)
Lemma run_draft_email env (kvs : gmap string json) (s : string) w :
  default (JStr "") (kvs !! "thread") = JStr s →
  draft_email env (JObj kvs) w =
  if blank s
  then (ok (jsonify_with (JObj {[ "error" := JStr "Empty thread" ]}) 400), w)
  else
    let thread := strip s in
    let w0 := with_memory (set_last_chat (JStr thread)) w in
    let resp := received (upstream env (length (sent w)) (email_request env thread)) in
    let w1 := after_sending [email_request env thread] w0 in
    match contains "choices" resp with
    | inl e => (inl e, w1)
    | inr false => (ok (jsonify_with (JObj {[ "error" := resp ]}) 400), w1)
    | inr true =>
        match first_content resp with
        | inl e => (inl e, w1)
        | inr draft =>
            (ok (jsonify (JObj {[ "draft" := draft ]})),
             with_memory
               (append_emails
                  (JObj {[ "thread" := JStr thread; "draft" := draft;
                           "ts" := JFloat (clock env) ]})) w1)
        end
    end.
Proof.
  intros Hs. unfold draft_email, get. rewrite run_bind_ok, Hs. unfold strip_.
  rewrite run_bind_ok, eqb_strip_blank.
  destruct (blank s); [reflexivity |].
  erewrite run_bind_val by apply run_write_memory.
  erewrite run_bind_val by apply run_call_openrouter.
  fold (email_request env (strip s)). cbv zeta.
  change (sent (with_memory _ w)) with (sent w).
  destruct (contains "choices" _) as [e | [|]]; [reflexivity | | reflexivity].
  rewrite run_bind_ok.
  destruct (first_content _) as [e | draft]; reflexivity.
Qed.

Lemma first_content_empty_choices (resp : gmap string json) :
  resp !! "choices" = Some (JArr []) →
  contains "choices" (JObj resp) = ok true
  ∧ first_content (JObj resp) = raise IndexError "list index out of range".
Proof.
  intros Hc. split.
  - unfold contains. by rewrite Hc.
  - unfold first_content. by rewrite (getitem_str_obj _ _ _ Hc), result_bind_ok.
Qed.

(** C8. When the body the upstream returns to the next call is an object
    whose [choices] is the empty list, the guard ["choices" in resp] passes
    and the index [0] is out of range: /api/ask (on a non-blank message),
    /api/tasks (on a goal that is absent or a string) and /api/draft-email
    (on a non-blank thread) each raise IndexError after that one call,
    instead of trying the next model or answering with their failure reply;
    nothing is appended to the history. *)
Theorem empty_choices_raises :
  ∀ env w (resp : gmap string json),
    resp !! "choices" = Some (JArr []) →
    (∀ req, received (upstream env (length (sent w)) req) = JObj resp) →
    (∀ (kvs : gmap string json) (s : string),
       kvs !! "message" = Some (JStr s) → blank s = false →
       ask env (JObj kvs) w
         = (raise IndexError "list index out of range",
            {| mem := set_last_chat (JStr (strip s)) (mem w);
               sent := sent w ++ [chat_request env (strip s)
                                    "meta-llama/llama-3.1-8b-instruct"] |}))
    ∧ (∀ (kvs : gmap string json) (s : string),
         default (JStr "Plan my day effectively") (kvs !! "goal") = JStr s →
         create_tasks env (JObj kvs) w
           = (raise IndexError "list index out of range",
              {| mem := mem w;
                 sent := sent w ++ [tasks_request env (strip s)] |}))
    ∧ (∀ (kvs : gmap string json) (s : string),
         kvs !! "thread" = Some (JStr s) → blank s = false →
         draft_email env (JObj kvs) w
           = (raise IndexError "list index out of range",
              {| mem := set_last_chat (JStr (strip s)) (mem w);
                 sent := sent w ++ [email_request env (strip s)] |})).
Proof.
  intros env w resp Hc Hup.
  destruct (first_content_empty_choices resp Hc) as [Hin Hraise].
  repeat split.
  - intros kvs s Hs Hb.
    rewrite (run_ask env kvs s), Hb by (by rewrite Hs).
    cbn [models for_return].
    erewrite run_bind_exn; [reflexivity |].
    rewrite run_ask_attempt. cbv zeta. unfold attempt.
    change (sent (with_memory _ w)) with (sent w).
    by rewrite Hup, Hin, Hraise.
  - intros kvs s Hs.
    rewrite (run_create_tasks env kvs s) by done. cbv zeta.
    by rewrite Hup, Hin, Hraise.
  - intros kvs s Hs Hb.
    rewrite (run_draft_email env kvs s), Hb by (by rewrite Hs). cbv zeta.
    by rewrite Hup, Hin, Hraise.
Qed.

Lemma empty_choices_raises_witness :
  let resp : gmap string json := {[ "choices" := JArr [] ]} in
  let kvs_ask : gmap string json := {[ "message" := JStr "hello" ]} in
  let kvs_tasks : gmap string json := {[ "goal" := JStr "ship the release" ]} in
  let kvs_email : gmap string json := {[ "thread" := JStr "Can we meet?" ]} in
  (resp !! "choices" = Some (JArr [])
   ∧ ∀ req, received (upstream empty_then_hi (length (sent boot)) req) = JObj resp)
  ∧ ask empty_then_hi (JObj kvs_ask) boot
      = (raise IndexError "list index out of range",
         {| mem := set_last_chat (JStr "hello") memory;
            sent := [chat_request empty_then_hi "hello"
                       "meta-llama/llama-3.1-8b-instruct"] |})
  ∧ create_tasks empty_then_hi (JObj kvs_tasks) boot
      = (raise IndexError "list index out of range",
         {| mem := memory;
            sent := [tasks_request empty_then_hi "ship the release"] |})
  ∧ draft_email empty_then_hi (JObj kvs_email) boot
      = (raise IndexError "list index out of range",
         {| mem := set_last_chat (JStr "Can we meet?") memory;
            sent := [email_request empty_then_hi "Can we meet?"] |}).
Proof.
  intros resp kvs_ask kvs_tasks kvs_email.
  assert (Hup : ∀ req,
            received (upstream empty_then_hi (length (sent boot)) req) = JObj resp)
    by (intros req; reflexivity).
  split; [split; [reflexivity | exact Hup] |].
  destruct (empty_choices_raises empty_then_hi boot resp eq_refl Hup)
    as (Hask & Htasks & Hemail).
  split; [| split].
  - exact (Hask kvs_ask "hello" eq_refl eq_refl).
  - exact (Htasks kvs_tasks "ship the release" eq_refl).
  - exact (Hemail kvs_email "Can we meet?" eq_refl eq_refl).
Defined.

(** C9. On a body whose [thread] is a string that is not blank,
    /api/draft-email leaves [last_chat] equal to the stripped thread text
    whatever the upstream call brings: a draft, an answer without
    [choices] (then the reply is 400 with the upstream payload and the
    history is what it was), or an exception in the handler.  Exactly one
    request went upstream, and a GET /api/health that follows shows the
    thread text under [last_chat]. *)
Theorem draft_email_sets_last_chat :
  ∀ env (kvs : gmap string json) (s : string) w,
    kvs !! "thread" = Some (JStr s) →
    blank s = false →
    let thread := strip s in
    let resp := received (upstream env (length (sent w)) (email_request env thread)) in
    let r := (draft_email env (JObj kvs) w).1 in
    let w' := (draft_email env (JObj kvs) w).2 in
    last_chat (mem w') = JStr thread
    ∧ sent w' = (sent w ++ [email_request env thread])%list
    ∧ (contains "choices" resp = ok false →
         r = ok (jsonify_with (JObj {[ "error" := resp ]}) 400)
         ∧ history (mem w') = history (mem w))
    ∧ (∀ env', ∃ b : gmap string json,
         (health env' w').1 = ok (jsonify (JObj b))
         ∧ b !! "last_chat" = Some (JStr thread)).
Proof.
  intros env kvs s w Hs Hb thread resp r w'. subst r w'.
  rewrite (run_draft_email env kvs s), Hb by (by rewrite Hs). cbv zeta.
  fold thread. fold resp.
  assert (Hhealth : ∀ env' w1, last_chat (mem w1) = JStr thread →
            ∃ b : gmap string json,
              (health env' w1).1 = ok (jsonify (JObj b))
              ∧ b !! "last_chat" = Some (JStr thread)).
  { intros env' w1 H1. eexists. split; [reflexivity |].
    rewrite lookup_insert_ne, lookup_insert_ne, lookup_insert_ne by done.
    by rewrite lookup_insert_eq, H1. }
  assert (Hframe : ∀ (r1 : result Reply) (w1 : World),
            last_chat (mem w1) = JStr thread →
            sent w1 = (sent w ++ [email_request env thread])%list →
            (contains "choices" resp = ok false →
               r1 = ok (jsonify_with (JObj {[ "error" := resp ]}) 400)
               ∧ history (mem w1) = history (mem w)) →
            last_chat (mem (r1, w1).2) = JStr thread
            ∧ sent (r1, w1).2 = (sent w ++ [email_request env thread])%list
            ∧ (contains "choices" resp = ok false →
                 (r1, w1).1 = ok (jsonify_with (JObj {[ "error" := resp ]}) 400)
                 ∧ history (mem (r1, w1).2) = history (mem w))
            ∧ (∀ env', ∃ b : gmap string json,
                 (health env' (r1, w1).2).1 = ok (jsonify (JObj b))
                 ∧ b !! "last_chat" = Some (JStr thread))).
  { intros r1 w1 H1 H2 H3. repeat split; try done; try (by apply H3).
    intros env'. by apply Hhealth. }
  destruct (contains "choices" resp) as [e | [|]].
  - apply Hframe; [reflexivity | reflexivity | discriminate].
  - destruct (first_content resp) as [e | draft];
      (apply Hframe; [reflexivity | reflexivity | discriminate]).
  - apply Hframe; [reflexivity | reflexivity |]. intros _. by split.
Qed.

Lemma draft_email_sets_last_chat_witness :
  let s := " Can we meet? " in
  let kvs : gmap string json := {[ "thread" := JStr s ]} in
  (kvs !! "thread" = Some (JStr s) ∧ blank s = false)
  ∧ (draft_email never_choices (JObj kvs) boot).1
      = ok (jsonify_with
              (JObj {[ "error" := JObj {[ "error" := JStr "Read timed out." ]} ]})
              400)
  ∧ last_chat (mem (draft_email never_choices (JObj kvs) boot).2)
      = JStr "Can we meet?".
Proof.
  intros s kvs.
  split; [split; reflexivity |].
  destruct (draft_email_sets_last_chat never_choices kvs s boot eq_refl eq_refl)
    as (Hlast & _ & Hfail & _).
  split; [exact (proj1 (Hfail eq_refl)) | exact Hlast].
Defined.

(** C10. On a body with no [goal], /api/tasks sends "Plan my day
    effectively" upstream as the user message; on a body whose [goal] is a
    string it sends that string stripped, and nothing else decides the
    goal: when the string is blank the user message that goes upstream is
    the empty string.  One request is sent in each case. *)
Theorem create_tasks_goal :
  ∀ env (kvs : gmap string json) w (goal : string),
    (kvs !! "goal" = None ∧ goal = "Plan my day effectively")
    ∨ (∃ s, kvs !! "goal" = Some (JStr s) ∧ goal = strip s) →
    sent (create_tasks env (JObj kvs) w).2
      = (sent w ++ [tasks_request env goal])%list
    ∧ (∃ p : gmap string json,
         payload (tasks_request env goal) = JObj p
         ∧ p !! "messages"
             = Some (JArr [message "system" tasks_system; message "user" goal]))
    ∧ ((∃ s, kvs !! "goal" = Some (JStr s) ∧ blank s = true) → goal = "").
Proof.
  intros env kvs w goal H. split; [| split].
  - assert (Hrun : ∃ s, default (JStr "Plan my day effectively") (kvs !! "goal")
                          = JStr s ∧ goal = strip s).
    { destruct H as [[-> ->] | (s & -> & ->)]; eexists; split; reflexivity. }
    destruct Hrun as (s & Hs & ->).
    rewrite (run_create_tasks env kvs s w Hs). cbv zeta.
    destruct (contains "choices" _) as [e | [|]]; [reflexivity | | reflexivity].
    destruct (first_content _) as [e | items]; reflexivity.
  - eexists. split; [reflexivity |].
    rewrite lookup_insert_ne by done. by rewrite lookup_insert_eq.
  - intros (s & Hs & Hb). destruct H as [[H _] | (s' & H & ->)]; [congruence |].
    rewrite Hs in H. injection H as <-. by apply strip_empty.
Qed.

Lemma create_tasks_goal_witness :
  let kvs : gmap string json := {[ "goal" := JStr "   " ]} in
  ((kvs !! "goal" = None ∧ "" = "Plan my day effectively")
   ∨ (∃ s, kvs !! "goal" = Some (JStr s) ∧ "" = strip s))
  ∧ sent (create_tasks never_choices (JObj kvs) boot).2
      = [tasks_request never_choices ""].
Proof.
  intros kvs.
  assert (H : (kvs !! "goal" = None ∧ "" = "Plan my day effectively")
              ∨ (∃ s, kvs !! "goal" = Some (JStr s) ∧ "" = strip s)).
  { right. exists "   ". split; reflexivity. }
  split; [exact H |].
  exact (proj1 (create_tasks_goal never_choices kvs boot "" H)).
Defined.

(** ** Further properties of the handlers *)

(** *** Stripped strings *)

Lemma lstrip_head (s : string) :
  lstrip s = "" ∨ ∃ a t, lstrip s = String a t ∧ isspace a = false.
Proof.
  induction s as [| a s IH]; simpl; [by left |].
  destruct (isspace a) eqn:Ha; [exact IH |]. right. by exists a, s.
Qed.

Lemma rstrip_idempotent (s : string) : rstrip (rstrip s) = rstrip s.
Proof.
  induction s as [| a s IH]; simpl; [done |].
  destruct (rstrip s) as [| b r] eqn:Hr.
  - destruct (isspace a) eqn:Ha; simpl; [done |]. by rewrite Ha.
  - change (rstrip (String a (String b r)))
      with (match rstrip (String b r) with
            | EmptyString => if isspace a then EmptyString else String a EmptyString
            | String c r' => String a (String c r')
            end).
    by rewrite IH.
Qed.

Lemma lstrip_rstrip (a : ascii) (t : string) :
  isspace a = false → lstrip (rstrip (String a t)) = rstrip (String a t).
Proof.
  intros Ha.
  change (rstrip (String a t))
    with (match rstrip t with
          | EmptyString => if isspace a then EmptyString else String a EmptyString
          | String c r' => String a (String c r')
          end).
  destruct (rstrip t); rewrite ?Ha; simpl; by rewrite Ha.
Qed.

Lemma strip_trimmed (s : string) : trimmed (strip s).
Proof.
  unfold trimmed, strip.
  destruct (lstrip_head s) as [-> | (a & t & -> & Ha)]; [done |].
  by rewrite (lstrip_rstrip a t Ha), rstrip_idempotent.
Qed.

Lemma strip_nonempty (s : string) : blank s = false → strip s ≠ "".
Proof. intros Hb H%strip_empty. congruence. Qed.

(** *** Every outcome of the handlers *)

Lemma chat_requests_S env q k m :
  models !! k = Some m →
  chat_requests env q (S k)
    = (chat_requests env q k ++ [chat_request env q m])%list.
Proof. intros Hk. unfold chat_requests. by rewrite (take_S_r _ _ _ Hk), fmap_app. Qed.

Lemma contains_raises key v e : contains key v = inl e → exn_class e = TypeError.
Proof. destruct v; simpl; intros H; by inversion H. Qed.

Lemma getitem_str_raises v key e :
  getitem_str v key = inl e → exn_class e ∈ [TypeError; KeyError; IndexError].
Proof.
  destruct v; simpl; try (intros H; inversion H; set_solver).
  destruct (kvs !! key); intros H; inversion H. set_solver.
Qed.

Lemma getitem_int_raises v i e :
  getitem_int v i = inl e → exn_class e ∈ [TypeError; KeyError; IndexError].
Proof.
  destruct v; simpl; try (intros H; inversion H; set_solver).
  - destruct (index_pos i (String.length s) ≫= str_at s);
      intros H; inversion H. set_solver.
  - destruct (index_pos i (length xs) ≫= (xs !!.));
      intros H; inversion H. set_solver.
Qed.

Lemma first_content_raises resp e :
  first_content resp = inl e → exn_class e ∈ [TypeError; KeyError; IndexError].
Proof.
  unfold first_content.
  destruct (getitem_str resp "choices") as [e1 | c] eqn:H1;
    [intros [= <-]; by eapply getitem_str_raises |].
  rewrite result_bind_ok.
  destruct (getitem_int c 0) as [e2 | c0] eqn:H2;
    [intros [= <-]; by eapply getitem_int_raises |].
  rewrite result_bind_ok.
  destruct (getitem_str c0 "message") as [e3 | m] eqn:H3;
    [intros [= <-]; by eapply getitem_str_raises |].
  rewrite result_bind_ok. apply getitem_str_raises.
Qed.

(** The loop of [ask] over any list of models: it ends after the whole
    list with the code after the loop, or at some model with a reply, or at
    some model with an exception. *)
Lemma ask_loop_cases env q (orelse : Reply) (ms : list string) :
  ∀ w,
    let run := for_return ms (ask_attempt env q) (mret orelse) w in
    run = (ok orelse, after_sending (chat_request env q <$> ms) w)
    ∨ (∃ (k : nat) (m : string) (ai : json),
         ms !! k = Some m
         ∧ contains "choices" (attempt env q (length (sent w) + k) m) = ok true
         ∧ first_content (attempt env q (length (sent w) + k) m) = ok ai
         ∧ run = (ok (jsonify (JObj {[ "reply" := ai; "model" := JStr m ]})),
                  with_memory (append_chats (chat_record q ai (clock env)))
                    (after_sending (chat_request env q <$> take (S k) ms) w)))
    ∨ (∃ (k : nat) (e : exn),
         (k < length ms)%nat
         ∧ exn_class e ∈ [TypeError; KeyError; IndexError]
         ∧ run = (inl e, after_sending (chat_request env q <$> take (S k) ms) w)).
Proof.
  induction ms as [| m ms IH]; intros w run; subst run.
  { left. cbn [for_return]. by rewrite run_ret, after_sending_nil. }
  cbn [for_return].
  pose proof (run_ask_attempt env q m w) as Hrun. cbv zeta in Hrun.
  destruct (contains "choices" (attempt env q (length (sent w)) m))
    as [e | [|]] eqn:Hin.
  - right. right. exists 0%nat, e. split; [simpl; lia |].
    split; [rewrite (contains_raises _ _ _ Hin); set_solver |].
    by rewrite (run_bind_exn _ _ _ _ _ Hrun).
  - destruct (first_content (attempt env q (length (sent w)) m))
      as [e | ai] eqn:Hai.
    + right. right. exists 0%nat, e. split; [simpl; lia |].
      split; [by eapply first_content_raises |].
      by rewrite (run_bind_exn _ _ _ _ _ Hrun).
    + right. left. exists 0%nat, m, ai. rewrite Nat.add_0_r.
      repeat split; try done.
      by rewrite (run_bind_val _ _ _ _ _ Hrun).
  - rewrite (run_bind_val _ _ _ _ _ Hrun).
    specialize (IH (after_sending [chat_request env q m] w)). cbv zeta in IH.
    rewrite length_sent_after_sending in IH. simpl length in IH.
    destruct IH as [IH | [(k & m' & ai & Hk & Hc & Hf & IH) | (k & e & Hk & He & IH)]].
    + left. by rewrite IH, after_sending_cons.
    + right. left. exists (S k), m', ai.
      replace (length (sent w) + S k)%nat with (length (sent w) + 1 + k)%nat by lia.
      repeat split; try done.
      by rewrite IH, after_sending_cons.
    + right. right. exists (S k), e. split; [simpl; lia |]. split; [done |].
      by rewrite IH, after_sending_cons.
Qed.

Lemma get_raises data key dflt e :
  get data key dflt = inl e →
  exn_class e = AttributeError ∧ ∀ kvs, data ≠ JObj kvs.
Proof. destruct data; simpl; intros H; inversion H; by split. Qed.

Lemma strip_raises v e :
  strip_ v = inl e → exn_class e = AttributeError ∧ ∀ s, v ≠ JStr s.
Proof. destruct v; simpl; intros H; inversion H; by split. Qed.

Lemma lower_raises v e :
  lower_ v = inl e → exn_class e = AttributeError ∧ ∀ s, v ≠ JStr s.
Proof. destruct v; simpl; intros H; inversion H; by split. Qed.

(** A handler that starts with [data.get(key, dflt).strip()]: either that
    raises AttributeError, or the body is a dict and the value a string. *)
Lemma get_strip_cases (data : json) (key : string) (dflt : json) :
  (∃ e, exn_class e = AttributeError
        ∧ (get data key dflt ≫= strip_) = inl e)
  ∨ ∃ (kvs : gmap string json) (s : string),
      data = JObj kvs ∧ default dflt (kvs !! key) = JStr s.
Proof.
  destruct data as [| | | | |  | kvs];
    try (left; eexists; split; [| reflexivity]; reflexivity).
  destruct (default dflt (kvs !! key)) as [| | | | s | |] eqn:Hv;
    try (left; eexists; split;
         [| unfold get; rewrite result_bind_ok, Hv; reflexivity]; reflexivity).
  right. by exists kvs, s.
Qed.

Lemma run_bind_lift_exn {A B} (r : result A) (f : A → M B) (w : World) (e : exn) :
  r = inl e → (lift r ≫= f) w = (inl e, w).
Proof. by intros ->. Qed.

Lemma ask_cases env data w :
  (∃ e, exn_class e = AttributeError ∧ ask env data w = (inl e, w))
  ∨ ∃ (kvs : gmap string json) (s : string),
      data = JObj kvs ∧ default (JStr "") (kvs !! "message") = JStr s
      ∧ ((blank s = true ∧ ask env data w = (ok empty_message, w))
         ∨ blank s = false ∧
           let q := strip s in
           let w0 := with_memory (set_last_chat (JStr q)) w in
           (ask env data w
              = (ok all_models_failed, after_sending (chat_requests env q 3) w0)
            ∨ (∃ (k : nat) (m : string) (ai : json),
                 models !! k = Some m
                 ∧ ask env data w
                     = (ok (jsonify (JObj {[ "reply" := ai; "model" := JStr m ]})),
                        with_memory (append_chats (chat_record q ai (clock env)))
                          (after_sending (chat_requests env q (S k)) w0)))
            ∨ (∃ (k : nat) (e : exn),
                 (k < 3)%nat
                 ∧ exn_class e ∈ [TypeError; KeyError; IndexError]
                 ∧ ask env data w
                     = (inl e, after_sending (chat_requests env q (S k)) w0)))).
Proof.
  destruct (get_strip_cases data "message" (JStr ""))
    as [(e & He & Hraise) | (kvs & s & -> & Hs)].
  - left. exists e. split; [done |]. unfold ask.
    destruct (get data "message" (JStr "")) as [e1 | v] eqn:Hget.
    + injection Hraise as <-. reflexivity.
    + rewrite run_bind_ok. rewrite result_bind_ok in Hraise.
      by apply run_bind_lift_exn.
  - right. exists kvs, s. split; [done |]. split; [done |].
    rewrite (run_ask env kvs s w Hs).
    destruct (blank s) eqn:Hb; [by left |]. right. split; [done |]. cbv zeta.
    destruct (ask_loop_cases env (strip s) all_models_failed models
                (with_memory (set_last_chat (JStr (strip s))) w))
      as [H | [(k & m & ai & Hk & _ & _ & H) | (k & e & Hk & He & H)]].
    + by left.
    + right. left. by exists k, m, ai.
    + right. right. by exists k, e.
Qed.

Lemma create_tasks_cases env data w :
  (∃ e, exn_class e = AttributeError ∧ create_tasks env data w = (inl e, w))
  ∨ ∃ (kvs : gmap string json) (s : string),
      data = JObj kvs
      ∧ default (JStr "Plan my day effectively") (kvs !! "goal") = JStr s
      ∧ let goal := strip s in
        let resp := received (upstream env (length (sent w)) (tasks_request env goal)) in
        let w1 := after_sending [tasks_request env goal] w in
        (create_tasks env data w
           = (ok (jsonify_with (JObj {[ "error" := resp ]}) 400), w1)
         ∨ (∃ items : json,
              create_tasks env data w
                = (ok (jsonify (JObj {[ "tasks" := items ]})),
                   with_memory
                     (λ m, append_tasks (task_record goal items (clock env))
                             (set_last_tasks items m)) w1))
         ∨ (∃ e : exn,
              exn_class e ∈ [TypeError; KeyError; IndexError]
              ∧ create_tasks env data w = (inl e, w1))).
Proof.
  destruct (get_strip_cases data "goal" (JStr "Plan my day effectively"))
    as [(e & He & Hraise) | (kvs & s & -> & Hs)].
  - left. exists e. split; [done |]. unfold create_tasks.
    destruct (get data "goal" _) as [e1 | v] eqn:Hget.
    + injection Hraise as <-. reflexivity.
    + rewrite run_bind_ok. rewrite result_bind_ok in Hraise.
      by apply run_bind_lift_exn.
  - right. exists kvs, s. split; [done |]. split; [done |].
    rewrite (run_create_tasks env kvs s w Hs). cbv zeta.
    destruct (contains "choices" _) as [e | [|]] eqn:Hin.
    + right. right. exists e. split; [| done].
      rewrite (contains_raises _ _ _ Hin). set_solver.
    + destruct (first_content _) as [e | items] eqn:Hfc.
      * right. right. exists e. split; [by eapply first_content_raises | done].
      * right. left. by exists items.
    + by left.
Qed.

Lemma draft_email_cases env data w :
  (∃ e, exn_class e = AttributeError ∧ draft_email env data w = (inl e, w))
  ∨ ∃ (kvs : gmap string json) (s : string),
      data = JObj kvs ∧ default (JStr "") (kvs !! "thread") = JStr s
      ∧ ((blank s = true ∧ draft_email env data w = (ok empty_thread, w))
         ∨ blank s = false ∧
           let thread := strip s in
           let resp :=
             received (upstream env (length (sent w)) (email_request env thread)) in
           let w1 := after_sending [email_request env thread]
                       (with_memory (set_last_chat (JStr thread)) w) in
           (draft_email env data w
              = (ok (jsonify_with (JObj {[ "error" := resp ]}) 400), w1)
            ∨ (∃ draft : json,
                 draft_email env data w
                   = (ok (jsonify (JObj {[ "draft" := draft ]})),
                      with_memory
                        (append_emails (email_record thread draft (clock env))) w1))
            ∨ (∃ e : exn,
                 exn_class e ∈ [TypeError; KeyError; IndexError]
                 ∧ draft_email env data w = (inl e, w1)))).
Proof.
  destruct (get_strip_cases data "thread" (JStr ""))
    as [(e & He & Hraise) | (kvs & s & -> & Hs)].
  - left. exists e. split; [done |]. unfold draft_email.
    destruct (get data "thread" _) as [e1 | v] eqn:Hget.
    + injection Hraise as <-. reflexivity.
    + rewrite run_bind_ok. rewrite result_bind_ok in Hraise.
      by apply run_bind_lift_exn.
  - right. exists kvs, s. split; [done |]. split; [done |].
    rewrite (run_draft_email env kvs s w Hs).
    destruct (blank s) eqn:Hb; [by left |]. right. split; [done |]. cbv zeta.
    destruct (contains "choices" _) as [e | [|]] eqn:Hin.
    + right. right. exists e. split; [| done].
      rewrite (contains_raises _ _ _ Hin). set_solver.
    + destruct (first_content _) as [e | draft] eqn:Hfc.
      * right. right. exists e. split; [by eapply first_content_raises | done].
      * right. left. by exists draft.
    + by left.
Qed.

Lemma gain_values (label : string) : default 5 (gains !! label) ∈ [5; 10; 15; 20].
Proof.
  destruct (decide (label = "chat")) as [-> | Hc]; [set_solver |].
  destruct (decide (label = "task")) as [-> | Ht]; [set_solver |].
  destruct (decide (label = "email")) as [-> | He]; [set_solver |].
  rewrite gains_unrecognized by done. set_solver.
Qed.

Lemma xp_update_cases data w :
  (∃ e, exn_class e = AttributeError ∧ xp_update data w = (inl e, w))
  ∨ ∃ (kvs : gmap string json) (label : string),
      data = JObj kvs ∧
      let gain := default 5 (gains !! label) in
      xp_update data w
        = (ok (jsonify (JObj {[ "action" := JStr label;
                                "xp_gained" := JInt gain;
                                "total_xp" := JInt (xp (mem w) + gain) ]})),
           with_memory (set_xp (xp (mem w) + gain)) w).
Proof.
  destruct data as [| | | | | | kvs];
    try (left; eexists; split; [| reflexivity]; reflexivity).
  rewrite run_xp_update.
  destruct (lower_ _) as [e | label] eqn:Hl.
  - left. exists e. split; [| done]. by apply lower_raises in Hl as [? _].
  - right. by exists kvs, label.
Qed.

Lemma length_chat_requests env q (k : nat) :
  (k ≤ 3)%nat → length (chat_requests env q k) = k.
Proof.
  intros Hk. unfold chat_requests. rewrite length_fmap, length_take.
  change (length models) with 3%nat. lia.
Qed.

(** X1. Whatever the body, the upstream and the state, /api/ask ends in one
    of four ways.  It replies 400 "Empty message" and the world is
    untouched.  It replies 500 "All models failed" after exactly three
    upstream calls, the history untouched.  It replies 200 after exactly
    [k+1] upstream calls with [model] the [k]-th model of the list and
    [reply] the first message content of the response to the [k]-th call;
    then the body is an object whose message is a string, exactly one chat
    record was appended, holding that message stripped and that same
    content, and [last_chat] is the stripped message.  Or it raises, after
    at most three upstream calls, and then no log changed. *)
Theorem ask_outcome :
  ∀ env data w,
    let w' := (ask env data w).2 in
    match (ask env data w).1 with
    | inr reply =>
        (reply = empty_message ∧ w' = w)
        ∨ (reply = all_models_failed
           ∧ history (mem w') = history (mem w)
           ∧ length (sent w') = (length (sent w) + 3)%nat)
        ∨ (∃ (kvs : gmap string json) (s q : string) (ai : json)
             (k : nat) (m : string),
             data = JObj kvs
             ∧ default (JStr "") (kvs !! "message") = JStr s
             ∧ q = strip s
             ∧ models !! k = Some m
             ∧ first_content (attempt env q (length (sent w) + k) m) = ok ai
             ∧ q ≠ "" ∧ trimmed q
             ∧ reply = jsonify (JObj {[ "reply" := ai; "model" := JStr m ]})
             ∧ history (mem w')
                 = {| chats := chats (history (mem w))
                                 ++ [chat_record q ai (clock env)];
                      tasks := tasks (history (mem w));
                      emails := emails (history (mem w)) |}
             ∧ last_chat (mem w') = JStr q
             ∧ length (sent w') = (length (sent w) + S k)%nat)
    | inl e =>
        history (mem w') = history (mem w)
        ∧ (length (sent w') ≤ length (sent w) + 3)%nat
    end.
Proof.
  intros env data w w'. subst w'.
  destruct (ask_cases env data w)
    as [(e & He & ->) | (kvs & s & -> & Hs & [[Hb ->] | [Hb _]])].
  - simpl. split; [done | lia].
  - left. by split.
  - rewrite (run_ask env kvs s w Hs), Hb.
    pose proof (ask_loop_cases env (strip s) all_models_failed models
                  (with_memory (set_last_chat (JStr (strip s))) w)) as H.
    cbv zeta in H. unfold all_models_failed in H.
    change (sent (with_memory (set_last_chat (JStr (strip s))) w))
      with (sent w) in H.
    destruct H as [-> | [(k & m & ai & Hk & Hc & Hf & ->) | (k & e & Hk & He & ->)]].
    + right. left. repeat split.
      cbn [snd]. rewrite length_sent_after_sending.
      change (chat_request env (strip s) <$> models)
        with (chat_requests env (strip s) 3).
      by rewrite length_chat_requests by lia.
    + right. right. exists kvs, s, (strip s), ai, k, m.
      pose proof (lookup_lt_Some _ _ _ Hk) as Hlt.
      change (length models) with 3%nat in Hlt.
      repeat split; try done; [by apply strip_nonempty | apply strip_trimmed |].
      cbn [snd]. change (sent (with_memory _ ?x)) with (sent x).
      rewrite length_sent_after_sending.
      change (chat_request env (strip s) <$> take (S k) models)
        with (chat_requests env (strip s) (S k)).
      by rewrite length_chat_requests by lia.
    + cbn [fst snd]. split; [done |].
      rewrite length_sent_after_sending.
      change (chat_request env (strip s) <$> take (S k) models)
        with (chat_requests env (strip s) (S k)).
      change (length models) with 3%nat in Hk.
      rewrite length_chat_requests by lia. simpl. lia.
Qed.

Lemma contains_error_value e : contains "choices" (error_value e) = ok false.
Proof. reflexivity. Qed.

Lemma received_fault (o : result Response) e : o = inl e → received o = error_value e.
Proof. by intros ->. Qed.

(** X2. On a body whose [goal] is absent or a string, /api/tasks sends one
    request for the stripped goal and then: when the test
    ["choices" in resp] is False on the response, in particular when the
    response is an object without the key [choices], it replies 400 with
    that response, as it is, under [error], and [memory] is untouched; when
    [requests.post] raised [e] that body is [{"error": {"error": str(e)}}];
    when the response is null, a boolean or a number the test itself raises
    TypeError and [memory] is untouched; when the response is an object
    whose [choices] starts with a choice carrying a message content, it
    replies 200 with that content under [tasks], stores it in [last_tasks]
    and appends one task record, the rest of [memory] untouched. *)
Theorem create_tasks_reply :
  ∀ env (kvs : gmap string json) (s : string) w,
    default (JStr "Plan my day effectively") (kvs !! "goal") = JStr s →
    let goal := strip s in
    let req := tasks_request env goal in
    let resp := received (upstream env (length (sent w)) req) in
    (contains "choices" resp = ok false →
       create_tasks env (JObj kvs) w
         = (ok (jsonify_with (JObj {[ "error" := resp ]}) 400),
            after_sending [req] w))
    ∧ (∀ e : exn, upstream env (length (sent w)) req = inl e →
         create_tasks env (JObj kvs) w
           = (ok (jsonify_with
                    (JObj {[ "error" := JObj {[ "error" := JStr (exn_str e) ]} ]})
                    400),
              after_sending [req] w))
    ∧ (∀ (r choice msg : gmap string json) (rest : list json) (items : json),
         resp = JObj r →
         r !! "choices" = Some (JArr (JObj choice :: rest)) →
         choice !! "message" = Some (JObj msg) →
         msg !! "content" = Some items →
         create_tasks env (JObj kvs) w
           = (ok (jsonify (JObj {[ "tasks" := items ]})),
              {| mem := append_tasks (task_record goal items (clock env))
                          (set_last_tasks items (mem w));
                 sent := sent w ++ [req] |}))
    ∧ (∀ r : gmap string json,
         resp = JObj r → r !! "choices" = None →
         create_tasks env (JObj kvs) w
           = (ok (jsonify_with (JObj {[ "error" := resp ]}) 400),
              after_sending [req] w))
    ∧ (resp = JNull ∨ (∃ b, resp = JBool b) ∨ (∃ n, resp = JInt n)
       ∨ (∃ f, resp = JFloat f) →
       ∃ e : exn,
         exn_class e = TypeError
         ∧ create_tasks env (JObj kvs) w = (inl e, after_sending [req] w)).
Proof.
  intros env kvs s w Hs goal req resp.
  pose proof (run_create_tasks env kvs s w Hs) as Hrun. cbv zeta in Hrun.
  fold goal req resp in Hrun.
  split; [| split; [| split; [| split]]].
  - intros Hin. by rewrite Hrun, Hin.
  - intros e He. rewrite Hrun. unfold resp.
    by rewrite (received_fault _ e He), contains_error_value.
  - intros r choice msg rest items Hr Hc Hm Hi.
    destruct (first_content_ok r choice msg rest items Hc Hm Hi) as [Hin Hfc].
    by rewrite Hrun, Hr, Hin, Hfc.
  - intros r Hr Hnone. rewrite Hrun, Hr. unfold contains. by rewrite Hnone.
  - intros H. rewrite Hrun.
    destruct H as [-> | [[b ->] | [[n ->] | [f ->]]]];
      (eexists; split; [| reflexivity]; reflexivity).
Qed.

Lemma create_tasks_reply_witness :
  let kvs : gmap string json := {[ "goal" := JStr " ship it " ]} in
  default (JStr "Plan my day effectively") (kvs !! "goal") = JStr " ship it "
  ∧ upstream never_choices (length (sent boot)) (tasks_request never_choices "ship it")
      = raise RequestException "Read timed out."
  ∧ create_tasks never_choices (JObj kvs) boot
      = (ok (jsonify_with
               (JObj {[ "error" := JObj {[ "error" := JStr "Read timed out." ]} ]})
               400),
         after_sending [tasks_request never_choices "ship it"] boot).
Proof.
  intros kvs. split; [reflexivity |]. split; [reflexivity |].
  exact (proj1 (proj2 (create_tasks_reply never_choices kvs " ship it " boot eq_refl))
           (Exn RequestException "Read timed out.") eq_refl).
Defined.

(** X3. On a body whose [thread] is absent or a string, /api/draft-email
    replies 400 "Empty thread" and leaves the world untouched when the
    thread is blank.  Otherwise it sends one request for the stripped
    thread; when [requests.post] raised [e] it replies 400 with
    [{"error": {"error": str(e)}}] and only [last_chat] changed; when the
    response is an object whose [choices] starts with a choice carrying a
    message content, it replies 200 with that content under [draft] and
    appends one e-mail record, [last_tasks], [xp] and the other logs
    untouched. *)
Theorem draft_email_reply :
  ∀ env (kvs : gmap string json) (s : string) w,
    default (JStr "") (kvs !! "thread") = JStr s →
    let thread := strip s in
    let req := email_request env thread in
    let resp := received (upstream env (length (sent w)) req) in
    (blank s = true → draft_email env (JObj kvs) w = (ok empty_thread, w))
    ∧ (blank s = false →
       (∀ e : exn, upstream env (length (sent w)) req = inl e →
          draft_email env (JObj kvs) w
            = (ok (jsonify_with
                     (JObj {[ "error" := JObj {[ "error" := JStr (exn_str e) ]} ]})
                     400),
               {| mem := set_last_chat (JStr thread) (mem w);
                  sent := sent w ++ [req] |}))
       ∧ (∀ (r choice msg : gmap string json) (rest : list json) (draft : json),
            resp = JObj r →
            r !! "choices" = Some (JArr (JObj choice :: rest)) →
            choice !! "message" = Some (JObj msg) →
            msg !! "content" = Some draft →
            draft_email env (JObj kvs) w
              = (ok (jsonify (JObj {[ "draft" := draft ]})),
                 {| mem := append_emails (email_record thread draft (clock env))
                             (set_last_chat (JStr thread) (mem w));
                    sent := sent w ++ [req] |}))).
Proof.
  intros env kvs s w Hs thread req resp.
  pose proof (run_draft_email env kvs s w Hs) as Hrun.
  split; [intros Hb; by rewrite Hrun, Hb |].
  intros Hb. rewrite Hb in Hrun. cbv zeta in Hrun. fold thread req resp in Hrun.
  split.
  - intros e He. rewrite Hrun. unfold resp.
    by rewrite (received_fault _ e He), contains_error_value.
  - intros r choice msg rest draft Hr Hc Hm Hi.
    destruct (first_content_ok r choice msg rest draft Hc Hm Hi) as [Hin Hfc].
    by rewrite Hrun, Hr, Hin, Hfc.
Qed.

Lemma draft_email_reply_witness :
  let kvs : gmap string json := {[ "thread" := JStr " Can we meet? " ]} in
  let r : gmap string json :=
    {[ "choices" :=
         JArr [JObj {[ "message" := JObj {[ "role" := JStr "assistant";
                                            "content" := JStr "hi" ]} ]}] ]} in
  (default (JStr "") (kvs !! "thread") = JStr " Can we meet? "
   ∧ blank " Can we meet? " = false
   ∧ received (upstream always_hi (length (sent boot))
                 (email_request always_hi "Can we meet?")) = JObj r)
  ∧ draft_email always_hi (JObj kvs) boot
      = (ok (jsonify (JObj {[ "draft" := JStr "hi" ]})),
         {| mem := append_emails
                     (email_record "Can we meet?" (JStr "hi") (clock always_hi))
                     (set_last_chat (JStr "Can we meet?") memory);
            sent := [email_request always_hi "Can we meet?"] |}).
Proof.
  intros kvs r. split; [repeat split; reflexivity |].
  exact (proj2 (proj2 (draft_email_reply always_hi kvs " Can we meet? " boot eq_refl)
                  eq_refl)
           r _ _ [] (JStr "hi") eq_refl eq_refl eq_refl eq_refl).
Defined.

(** *** What one request does to the store and to the wire *)

Lemma handle_step env (c : Call) w : effect c (mem w) (mem (handle env c w).2).
Proof.
  destruct c as [data | data | data | data | | |]; cbn [handle].
  - destruct (ask_cases env data w)
      as [(e & He & ->) | (kvs & s & -> & Hs & [[Hb ->] | [Hb H]])];
      [by constructor | by constructor |].
    cbv zeta in H.
    pose proof (strip_nonempty s Hb) as Hne. pose proof (strip_trimmed s) as Htr.
    destruct H as [-> | [(k & m & ai & Hk & ->) | (k & e & Hk & He & ->)]];
      cbn [snd mem with_memory after_sending]; by constructor.
  - destruct (create_tasks_cases env data w)
      as [(e & He & ->) | (kvs & s & -> & Hs & H)]; [by constructor |].
    cbv zeta in H.
    destruct H as [-> | [(items & ->) | (e & He & ->)]];
      cbn [snd mem with_memory after_sending];
      [by constructor | | by constructor].
    constructor. apply strip_trimmed.
  - destruct (draft_email_cases env data w)
      as [(e & He & ->) | (kvs & s & -> & Hs & [[Hb ->] | [Hb H]])];
      [by constructor | by constructor |].
    cbv zeta in H.
    pose proof (strip_nonempty s Hb) as Hne. pose proof (strip_trimmed s) as Htr.
    destruct H as [-> | [(draft & ->) | (e & He & ->)]];
      cbn [snd mem with_memory after_sending]; by constructor.
  - destruct (xp_update_cases data w) as [(e & He & ->) | (kvs & label & -> & H)];
      [by constructor |].
    cbv zeta in H. rewrite H. cbn [snd mem with_memory].
    constructor. apply gain_values.
  - by constructor.
  - by constructor.
  - constructor.
Qed.

(** X4. Which parts of [memory] a route can touch, for every body, upstream
    and state, exceptions included: /api/ask leaves [xp], [last_tasks] and
    the task and e-mail logs alone; /api/tasks leaves [xp], [last_chat] and
    the chat and e-mail logs alone; /api/draft-email leaves [xp],
    [last_tasks] and the chat and task logs alone; /api/xp leaves
    everything but [xp] alone and sends nothing; /api/health and
    /api/history change nothing at all; /api/history/clear leaves [xp],
    [last_chat] and [last_tasks] as they are and sends nothing. *)
Theorem handle_frame :
  ∀ env (c : Call) (w : World),
    let m := mem w in
    let w' := (handle env c w).2 in
    let m' := mem w' in
    match c with
    | PostAsk _ =>
        xp m' = xp m ∧ last_tasks m' = last_tasks m
        ∧ tasks (history m') = tasks (history m)
        ∧ emails (history m') = emails (history m)
    | PostTasks _ =>
        xp m' = xp m ∧ last_chat m' = last_chat m
        ∧ chats (history m') = chats (history m)
        ∧ emails (history m') = emails (history m)
    | PostDraftEmail _ =>
        xp m' = xp m ∧ last_tasks m' = last_tasks m
        ∧ chats (history m') = chats (history m)
        ∧ tasks (history m') = tasks (history m)
    | PostXp _ =>
        last_chat m' = last_chat m ∧ last_tasks m' = last_tasks m
        ∧ history m' = history m ∧ sent w' = sent w
    | GetHealth | GetHistory => w' = w
    | PostHistoryClear =>
        xp m' = xp m ∧ last_chat m' = last_chat m
        ∧ last_tasks m' = last_tasks m ∧ sent w' = sent w
    end.
Proof.
  intros env c w m w' m'. subst m w' m'.
  pose proof (handle_step env c w) as H.
  destruct c as [data | data | data | data | | |].
  - revert H. generalize (mem (handle env (PostAsk data) w).2).
    intros m' H. inversion H; subst; by repeat split.
  - revert H. generalize (mem (handle env (PostTasks data) w).2).
    intros m' H. inversion H; subst; by repeat split.
  - revert H. generalize (mem (handle env (PostDraftEmail data) w).2).
    intros m' H. inversion H; subst; by repeat split.
  - split; [| split; [| split]].
    4:{ cbn [handle].
        destruct (xp_update_cases data w)
          as [(e & He & ->) | (kvs & label & -> & Hx)]; [done |].
        cbv zeta in Hx. by rewrite Hx. }
    all: revert H; generalize (mem (handle env (PostXp data) w).2);
      intros m' H; inversion H; subst; done.
  - reflexivity.
  - reflexivity.
  - by repeat split.
Qed.

Lemma to_openrouter_completion env messages model max_tokens temperature title :
  to_openrouter env
    (completion_request env messages model max_tokens temperature title).
Proof.
  repeat split. eexists. split; [reflexivity |].
  rewrite !dom_insert_L, dom_singleton_L. set_solver.
Qed.

(** X5. Whatever the body, the upstream and the state, a route only adds
    to the list of upstream requests: at most three for /api/ask, at most
    one for /api/tasks and /api/draft-email, none for the other routes.
    Every request it adds is a POST to the OpenRouter completions URL with
    timeout 60, the bearer key of the environment, a JSON content type and
    a payload with exactly the keys model, messages, max_tokens and
    temperature. *)
Theorem handle_upstream_calls :
  ∀ env (c : Call) (w : World),
    ∃ reqs : list Request,
      sent (handle env c w).2 = (sent w ++ reqs)%list
      ∧ (length reqs ≤ max_upstream_calls c)%nat
      ∧ Forall (to_openrouter env) reqs.
Proof.
  intros env c w.
  assert (Hnone : ∀ w', sent w' = sent w →
            ∃ reqs, sent w' = (sent w ++ reqs)%list
                    ∧ (length reqs ≤ max_upstream_calls c)%nat
                    ∧ Forall (to_openrouter env) reqs).
  { intros w' Hw'. exists []. rewrite app_nil_r. repeat split; [done | simpl; lia | done]. }
  destruct c as [data | data | data | data | | |]; cbn [handle].
  - assert (Hsome : ∀ q k w', (k ≤ 3)%nat → sent w' = (sent w ++ chat_requests env q k)%list →
              ∃ reqs, sent w' = (sent w ++ reqs)%list
                      ∧ (length reqs ≤ 3)%nat ∧ Forall (to_openrouter env) reqs).
    { intros q k w' Hk Hw'. exists (chat_requests env q k).
      split; [done |]. split; [by rewrite length_chat_requests |].
      unfold chat_requests. apply Forall_fmap, Forall_forall.
      intros m _. apply to_openrouter_completion. }
    destruct (ask_cases env data w)
      as [(e & He & ->) | (kvs & s & -> & Hs & [[Hb ->] | [Hb H]])];
      [by apply Hnone | by apply Hnone |].
    cbv zeta in H.
    destruct H as [-> | [(k & m & ai & Hk & ->) | (k & e & Hk & He & ->)]].
    + by apply (Hsome (strip s) 3%nat).
    + apply lookup_lt_Some in Hk. change (length models) with 3%nat in Hk.
      apply (Hsome (strip s) (S k)); [lia | done].
    + apply (Hsome (strip s) (S k)); [lia | done].
  - destruct (create_tasks_cases env data w)
      as [(e & He & ->) | (kvs & s & -> & Hs & H)]; [by apply Hnone |].
    cbv zeta in H.
    assert (∃ w', (create_tasks env (JObj kvs) w).2 = w'
                  ∧ sent w' = (sent w ++ [tasks_request env (strip s)])%list)
      as (w' & -> & Hw').
    { destruct H as [-> | [(items & ->) | (e & He & ->)]]; by eexists. }
    exists [tasks_request env (strip s)]. split; [done |]. split; [simpl; lia |].
    apply Forall_singleton, to_openrouter_completion.
  - destruct (draft_email_cases env data w)
      as [(e & He & ->) | (kvs & s & -> & Hs & [[Hb ->] | [Hb H]])];
      [by apply Hnone | by apply Hnone |].
    cbv zeta in H.
    assert (∃ w', (draft_email env (JObj kvs) w).2 = w'
                  ∧ sent w' = (sent w ++ [email_request env (strip s)])%list)
      as (w' & -> & Hw').
    { destruct H as [-> | [(draft & ->) | (e & He & ->)]]; by eexists. }
    exists [email_request env (strip s)]. split; [done |]. split; [simpl; lia |].
    apply Forall_singleton, to_openrouter_completion.
  - apply Hnone.
    destruct (xp_update_cases data w) as [(e & He & ->) | (kvs & label & -> & H)];
      [done |].
    cbv zeta in H. by rewrite H.
  - by apply Hnone.
  - by apply Hnone.
  - by apply Hnone.
Qed.

(** *** Runs of the server *)

Lemma serve_cons env c reqs w :
  serve ((env, c) :: reqs) w = serve reqs (handle env c w).2.
Proof. reflexivity. Qed.

(** A property of [memory] that every effect of a request keeps holds
    along every run. *)
Lemma serve_invariant (I : Memory → Prop) :
  (∀ c m m', effect c m m' → I m → I m') →
  ∀ reqs w, I (mem w) → I (mem (serve reqs w)).
Proof.
  intros Hstep reqs. induction reqs as [| [env c] reqs IH]; intros w Hw; [done |].
  rewrite serve_cons. apply IH. eapply Hstep; [apply handle_step | done].
Qed.

(** X6. Over any run of the server, from any state, [xp] never goes down,
    and it goes up by at most 20 for each call to /api/xp in the run: no
    other route changes it. *)
Theorem serve_xp_bounds :
  ∀ (reqs : list (Env * Call)) (w : World),
    xp (mem w) ≤ xp (mem (serve reqs w))
    ∧ xp (mem (serve reqs w)) ≤ xp (mem w) + 20 * Z.of_nat (xp_calls reqs).
Proof.
  induction reqs as [| [env c] reqs IH]; intros w.
  { unfold xp_calls. simpl. lia. }
  rewrite serve_cons.
  specialize (IH (handle env c w).2).
  pose proof (handle_step env c w) as H. revert H IH.
  generalize (handle env c w).2. intros w1 H IH.
  assert (Hstep : xp (mem w) ≤ xp (mem w1)
                  ∧ xp (mem w1) ≤ xp (mem w)
                      + 20 * Z.of_nat (if is_xp_call (env, c) then 1 else 0)).
  { revert H. generalize (mem w1). intros m1 H.
    inversion H; subst; cbn [is_xp_call snd xp set_last_chat set_last_tasks
      set_history set_xp append_chats append_tasks append_emails];
      try (simpl; lia); try (destruct c; simpl; lia).
    match goal with Hg : _ ∈ _ |- _ => rename Hg into Hgain end.
    rewrite !elem_of_cons in Hgain. rewrite elem_of_nil in Hgain. simpl. lia. }
  unfold xp_calls in *. cbn [List.filter].
  destruct (is_xp_call (env, c)); cbn [length]; lia.
Qed.

Lemma last_chat_ok_step c m m' : effect c m m' → last_chat_ok m → last_chat_ok m'.
Proof.
  intros H Hm. inversion H; subst; try exact Hm;
    right; eexists; (split; [reflexivity |]); by split.
Qed.

(** X7. [last_chat] is always [None] or a non-empty string with no
    whitespace at either end: when that holds of a state it holds after any
    run of the server from it, and it holds when the process starts. *)
Theorem serve_last_chat_ok :
  ∀ (reqs : list (Env * Call)) (w : World),
    last_chat_ok (mem w) → last_chat_ok (mem (serve reqs w)).
Proof. intros reqs w. apply serve_invariant, last_chat_ok_step. Qed.

Lemma serve_last_chat_ok_witness :
  last_chat_ok (mem boot) ∧ last_chat_ok (mem (serve busy_run boot)).
Proof.
  assert (H : last_chat_ok (mem boot)) by (by left).
  split; [exact H | exact (serve_last_chat_ok busy_run boot H)].
Defined.

Lemma records_ok_step c m m' : effect c m m' → records_ok m → records_ok m'.
Proof.
  intros H (Hc & Ht & He). inversion H; subst; try (by split);
    (split; [| split]); cbn; try done.
  - apply Forall_app. split; [done |]. apply Forall_singleton. by exists q, ai, ts.
  - apply Forall_app. split; [done |]. apply Forall_singleton. by exists goal, items, ts.
  - apply Forall_app. split; [done |]. apply Forall_singleton. by exists thread, draft, ts.
Qed.

(** X8. Every entry of the chat log is a dict with exactly the keys user,
    ai and ts, whose user is a non-empty stripped string; every entry of the
    task log has goal, items and ts, with a stripped (possibly empty) goal;
    every entry of the e-mail log has thread, draft and ts, with a
    non-empty stripped thread.  This holds when the process starts and is
    kept by every run of the server.  The ai, items and draft fields are
    whatever JSON value the upstream put under content. *)
Theorem serve_records_ok :
  ∀ (reqs : list (Env * Call)) (w : World),
    records_ok (mem w) → records_ok (mem (serve reqs w)).
Proof. intros reqs w. apply serve_invariant, records_ok_step. Qed.

Lemma serve_records_ok_witness :
  records_ok (mem boot) ∧ records_ok (mem (serve busy_run boot)).
Proof.
  assert (H : records_ok (mem boot)) by (by repeat split).
  split; [exact H | exact (serve_records_ok busy_run boot H)].
Defined.

Lemma last_tasks_logged_step c m m' :
  effect c m m' → last_tasks_logged m → last_tasks_logged m'.
Proof.
  intros H Hm. inversion H; subst; try exact Hm.
  - unfold last_tasks_logged. cbn. rewrite last_snoc. by exists goal, ts.
  - done.
Qed.

(** X9. Whenever the task log is not empty, [last_tasks] is the [items] of
    its newest record: this holds when the process starts and is kept by
    every run of the server. *)
Theorem serve_last_tasks_logged :
  ∀ (reqs : list (Env * Call)) (w : World),
    last_tasks_logged (mem w) → last_tasks_logged (mem (serve reqs w)).
Proof. intros reqs w. apply serve_invariant, last_tasks_logged_step. Qed.

Lemma serve_last_tasks_logged_witness :
  last_tasks_logged (mem boot)
  ∧ last_tasks_logged (mem (serve busy_run boot)).
Proof.
  assert (H : last_tasks_logged (mem boot)) by exact I.
  split; [exact H | exact (serve_last_tasks_logged busy_run boot H)].
Defined.

(** *** What the handlers do not look at *)

Lemma bind_agree {A B} (m m' : M A) (f f' : A → M B) (w : World) :
  m w = m' w → (∀ a w1, f a w1 = f' a w1) → (m ≫= f) w = (m' ≫= f') w.
Proof.
  intros Hm Hf. rewrite !run_bind, <- Hm.
  destruct (m w) as [[e | a] w1]; [done | apply Hf].
Qed.

Lemma for_return_agree {A B} (l : list A) (body body' : A → M (option B))
    (orelse : M B) :
  (∀ x w, body x w = body' x w) →
  ∀ w, for_return l body orelse w = for_return l body' orelse w.
Proof.
  intros Hb. induction l as [| x l IH]; intros w; [done |].
  cbn [for_return]. apply bind_agree; [apply Hb |].
  intros [b |] w1; [done | apply IH].
Qed.

Section Agree.
Context (env env' : Env).
Hypothesis Hkey : OPENROUTER_KEY env = OPENROUTER_KEY env'.
Hypothesis Hclock : clock env = clock env'.
Hypothesis Hup : same_answers env env'.

Lemma completion_request_agree messages model max_tokens temperature title :
  completion_request env messages model max_tokens temperature title
  = completion_request env' messages model max_tokens temperature title.
Proof. unfold completion_request, _headers. by rewrite Hkey. Qed.

Lemma call_openrouter_agree messages model max_tokens temperature title w :
  call_openrouter env messages model max_tokens temperature title w
  = call_openrouter env' messages model max_tokens temperature title w.
Proof.
  rewrite !run_call_openrouter. cbv zeta.
  by rewrite completion_request_agree, Hup.
Qed.

Ltac agree_step :=
  lazymatch goal with
  | |- (call_openrouter _ _ _ _ _ _ ≫= _) _ = _ =>
      apply bind_agree; [apply call_openrouter_agree | intros ? ?]
  | |- (time_time _ ≫= _) _ = _ =>
      apply bind_agree; [unfold time_time; by rewrite Hclock | intros ? ?]
  | |- (_ ≫= _) _ = (_ ≫= _) _ =>
      apply bind_agree; [reflexivity | intros ? ?]
  | |- for_return _ _ _ _ = _ => apply for_return_agree; intros ? ?
  | |- (if ?b then _ else _) _ = _ => destruct b
  | |- _ => reflexivity
  end.

Lemma ask_agree data w : ask env data w = ask env' data w.
Proof. unfold ask, ask_attempt. repeat agree_step. Qed.

Lemma create_tasks_agree data w :
  MODEL env = MODEL env' → create_tasks env data w = create_tasks env' data w.
Proof. intros Hm. unfold create_tasks. rewrite Hm. repeat agree_step. Qed.

Lemma draft_email_agree data w :
  MODEL env = MODEL env' → draft_email env data w = draft_email env' data w.
Proof. intros Hm. unfold draft_email. rewrite Hm. repeat agree_step. Qed.

End Agree.


(** X11. The handlers see the upstream only through the value the upstream
    client hands back.  Two environments with the same variables and clock
    whose upstreams hand back the same values make every route behave the
    same, reply and state: the HTTP status of the response, the class of an
    exception, and whether it was raised by [requests.post] or by
    [r.json()] make no difference. *)
Theorem handle_sees_only_received :
  ∀ (env env' : Env) (c : Call) (w : World),
    environ env = environ env' →
    clock env = clock env' →
    same_answers env env' →
    handle env c w = handle env' c w.
Proof.
  intros env env' c w Henv Hclock Hup.
  assert (Hkey : OPENROUTER_KEY env = OPENROUTER_KEY env')
    by (unfold OPENROUTER_KEY, getenv; by rewrite Henv).
  assert (Hmodel : MODEL env = MODEL env')
    by (unfold MODEL, getenv; by rewrite Henv).
  destruct c; cbn [handle].
  - by apply ask_agree.
  - by apply create_tasks_agree.
  - by apply draft_email_agree.
  - reflexivity.
  - unfold health. by rewrite Hmodel.
  - reflexivity.
  - reflexivity.
Qed.

Lemma handle_sees_only_received_witness :
  let c := PostAsk (JObj {[ "message" := JStr "hello" ]}) in
  (environ always_hi = environ always_hi_500
   ∧ clock always_hi = clock always_hi_500
   ∧ same_answers always_hi always_hi_500)
  ∧ handle always_hi c boot = handle always_hi_500 c boot.
Proof.
  intros c.
  assert (Hup : same_answers always_hi always_hi_500) by (intros n req; reflexivity).
  split; [by repeat split |].
  exact (handle_sees_only_received always_hi always_hi_500 c boot eq_refl eq_refl Hup).
Defined.

(** *** Bodies of the wrong type *)

(** X12. A body that is valid JSON but not an object (a list, a string, a
    number, a boolean, null) makes each of the four POST handlers raise
    AttributeError at [data.get], before anything is stored or sent: the
    world is untouched. *)
Theorem non_object_body_raises :
  ∀ (env : Env) (data : json) (w : World),
    (∀ kvs, data ≠ JObj kvs) →
    ∃ e : exn,
      exn_class e = AttributeError
      ∧ ask env data w = (inl e, w)
      ∧ create_tasks env data w = (inl e, w)
      ∧ draft_email env data w = (inl e, w)
      ∧ xp_update data w = (inl e, w).
Proof.
  intros env data w Hdata.
  exists (Exn AttributeError "object has no attribute 'get'").
  destruct data; try (by repeat split). by destruct (Hdata kvs).
Qed.

Lemma non_object_body_raises_witness :
  (∀ kvs, JArr [JStr "hello"] ≠ JObj kvs)
  ∧ ∃ e : exn,
      exn_class e = AttributeError
      ∧ ask always_hi (JArr [JStr "hello"]) boot = (inl e, boot)
      ∧ create_tasks always_hi (JArr [JStr "hello"]) boot = (inl e, boot)
      ∧ draft_email always_hi (JArr [JStr "hello"]) boot = (inl e, boot)
      ∧ xp_update (JArr [JStr "hello"]) boot = (inl e, boot).
Proof.
  assert (H : ∀ kvs, JArr [JStr "hello"] ≠ JObj kvs) by (intros kvs; discriminate).
  split; [exact H |].
  exact (non_object_body_raises always_hi (JArr [JStr "hello"]) boot H).
Defined.

(** X13. A field that is present but not a string makes the handler raise
    AttributeError with the world untouched: [message] for /api/ask, [goal]
    for /api/tasks and [thread] for /api/draft-email at [.strip()], also
    when the value is null; [action] for /api/xp at [.lower()] when the
    value is truthy (a falsy one is replaced by "chat"). *)
Theorem non_string_field_raises :
  ∀ (env : Env) (kvs : gmap string json) (v : json) (w : World),
    (∀ s, v ≠ JStr s) →
    (kvs !! "message" = Some v →
       ∃ e, exn_class e = AttributeError ∧ ask env (JObj kvs) w = (inl e, w))
    ∧ (kvs !! "goal" = Some v →
         ∃ e, exn_class e = AttributeError
              ∧ create_tasks env (JObj kvs) w = (inl e, w))
    ∧ (kvs !! "thread" = Some v →
         ∃ e, exn_class e = AttributeError
              ∧ draft_email env (JObj kvs) w = (inl e, w))
    ∧ (kvs !! "action" = Some v → truthy v = true →
         ∃ e, exn_class e = AttributeError ∧ xp_update (JObj kvs) w = (inl e, w)).
Proof.
  intros env kvs v w Hv.
  assert (Hstrip : strip_ v = raise AttributeError "object has no attribute 'strip'").
  { destruct v; try reflexivity. by destruct (Hv s). }
  assert (Hlower : lower_ v = raise AttributeError "object has no attribute 'lower'").
  { destruct v; try reflexivity. by destruct (Hv s). }
  repeat split.
  - intros Hk. eexists. split; [| unfold ask, get; rewrite run_bind_ok, Hk;
      cbn [from_option id]; rewrite Hstrip; reflexivity]. reflexivity.
  - intros Hk. eexists. split; [| unfold create_tasks, get; rewrite run_bind_ok, Hk;
      cbn [from_option id]; rewrite Hstrip; reflexivity]. reflexivity.
  - intros Hk. eexists. split; [| unfold draft_email, get; rewrite run_bind_ok, Hk;
      cbn [from_option id]; rewrite Hstrip; reflexivity]. reflexivity.
  - intros Hk Ht. eexists. split; [| rewrite run_xp_update, Hk; cbn [from_option id];
      unfold or_; rewrite Ht, Hlower; reflexivity]. reflexivity.
Qed.

Lemma non_string_field_raises_witness :
  let kvs : gmap string json := {[ "message" := JNull ]} in
  (∀ s, JNull ≠ JStr s)
  ∧ ∃ e, exn_class e = AttributeError
         ∧ ask always_hi (JObj kvs) boot = (inl e, boot).
Proof.
  intros kvs.
  assert (H : ∀ s, JNull ≠ JStr s) by (intros s; discriminate).
  split; [exact H |].
  exact (proj1 (non_string_field_raises always_hi kvs JNull boot H) eq_refl).
Defined.

(** *** What was just written is what is then read *)

Lemma last_slice_snoc {A} (l : list A) (x : A) :
  last (slice_from (-20) (l ++ [x])) = Some x.
Proof.
  change (-20) with (- Z.of_nat 20). rewrite slice_from_last by lia.
  rewrite length_app. cbn [length].
  rewrite drop_app_le by lia. apply last_snoc.
Qed.

(** X14. When /api/ask replies 200, the reply it returns is the one it
    logged: a GET /api/history right after shows, as the last entry of
    [chats], the record of the stripped message with exactly the [reply] of
    the response, stamped with the clock, and [model] is one of the three
    models. *)
Theorem ask_then_history :
  ∀ (env : Env) (data : json) (w : World) (reply : Reply),
    (ask env data w).1 = ok reply →
    status reply = 200 →
    ∃ (q : string) (ai : json) (m : string) (cs ts es : list json),
      m ∈ models
      ∧ body reply = JObj {[ "reply" := ai; "model" := JStr m ]}
      ∧ (get_history (ask env data w).2).1
          = ok (jsonify (JObj {[ "chats" := JArr cs; "tasks" := JArr ts;
                                 "emails" := JArr es ]}))
      ∧ last cs = Some (chat_record q ai (clock env)).
Proof.
  intros env data w reply Hr Hs.
  destruct (ask_cases env data w)
    as [(e & He & H) | (kvs & s & -> & Hm & [[Hb H] | [Hb H]])].
  - rewrite H in Hr. discriminate Hr.
  - rewrite H in Hr. injection Hr as <-. discriminate Hs.
  - cbv zeta in H.
    destruct H as [H | [(k & m & ai & Hk & H) | (k & e & Hk & He & H)]].
    + rewrite H in Hr. injection Hr as <-. discriminate Hs.
    + rewrite H in Hr |- *. injection Hr as <-.
      exists (strip s), ai, m. eexists _, _, _.
      split; [by eapply list_elem_of_lookup_2 |]. split; [reflexivity |].
      split; [reflexivity |]. apply last_slice_snoc.
    + rewrite H in Hr. discriminate Hr.
Qed.

Lemma ask_then_history_witness :
  let data := JObj {[ "message" := JStr " hello " ]} in
  ((ask timeout_then_hi data boot).1
     = ok (jsonify (JObj {[ "reply" := JStr "hi"; "model" := JStr mistral ]}))
   ∧ status (jsonify (JObj {[ "reply" := JStr "hi"; "model" := JStr mistral ]})) = 200)
  ∧ ∃ (q : string) (ai : json) (m : string) (cs ts es : list json),
      m ∈ models
      ∧ body (jsonify (JObj {[ "reply" := JStr "hi"; "model" := JStr mistral ]}))
          = JObj {[ "reply" := ai; "model" := JStr m ]}
      ∧ (get_history (ask timeout_then_hi data boot).2).1
          = ok (jsonify (JObj {[ "chats" := JArr cs; "tasks" := JArr ts;
                                 "emails" := JArr es ]}))
      ∧ last cs = Some (chat_record q ai (clock timeout_then_hi)).
Proof.
  intros data.
  assert (H : (ask timeout_then_hi data boot).1
     = ok (jsonify (JObj {[ "reply" := JStr "hi"; "model" := JStr mistral ]})))
    by reflexivity.
  split; [split; [exact H | reflexivity] |].
  exact (ask_then_history timeout_then_hi data boot _ H eq_refl).
Defined.

(** X15. When /api/xp replies, the total it returns is the old total plus
    the gain it returns, the gain is 5, 10, 15 or 20, and a GET /api/health
    right after shows that same total under [xp]. *)
Theorem xp_update_then_health :
  ∀ (env : Env) (data : json) (w : World) (reply : Reply),
    (xp_update data w).1 = ok reply →
    ∃ (label : string) (gain : Z) (b : gmap string json),
      reply = jsonify (JObj {[ "action" := JStr label;
                               "xp_gained" := JInt gain;
                               "total_xp" := JInt (xp (mem w) + gain) ]})
      ∧ gain ∈ [5; 10; 15; 20]
      ∧ (health env (xp_update data w).2).1 = ok (jsonify (JObj b))
      ∧ b !! "xp" = Some (JInt (xp (mem w) + gain)).
Proof.
  intros env data w reply Hr.
  destruct (xp_update_cases data w) as [(e & He & H) | (kvs & label & -> & H)].
  - rewrite H in Hr. discriminate Hr.
  - cbv zeta in H. rewrite H in Hr |- *. injection Hr as <-.
    exists label, (default 5 (gains !! label)). eexists.
    split; [reflexivity |]. split; [apply gain_values |].
    split; [reflexivity |].
    rewrite lookup_insert_ne, lookup_insert_ne by done. by rewrite lookup_insert_eq.
Qed.

Lemma xp_update_then_health_witness :
  let data := JObj {[ "action" := JStr "Email" ]} in
  let reply := jsonify (JObj {[ "action" := JStr "email";
                                "xp_gained" := JInt 15;
                                "total_xp" := JInt 515 ]}) in
  (xp_update data boot).1 = ok reply
  ∧ ∃ (label : string) (gain : Z) (b : gmap string json),
      reply = jsonify (JObj {[ "action" := JStr label;
                               "xp_gained" := JInt gain;
                               "total_xp" := JInt (xp (mem boot) + gain) ]})
      ∧ gain ∈ [5; 10; 15; 20]
      ∧ (health always_hi (xp_update data boot).2).1 = ok (jsonify (JObj b))
      ∧ b !! "xp" = Some (JInt (xp (mem boot) + gain)).
Proof.
  intros data reply.
  assert (H : (xp_update data boot).1 = ok reply) by reflexivity.
  split; [exact H |].
  exact (xp_update_then_health always_hi data boot reply H).
Defined.

(** X16. When /api/tasks replies 200, the text it returns under [tasks] is
    what a GET /api/health right after shows under [last_tasks], and what a
    GET /api/history shows as the [items] of the last entry of [tasks]. *)
Theorem create_tasks_then_read :
  ∀ (env env' : Env) (data : json) (w : World) (reply : Reply),
    (create_tasks env data w).1 = ok reply →
    status reply = 200 →
    let w' := (create_tasks env data w).2 in
    ∃ (goal : string) (items : json) (b : gmap string json) (cs ts es : list json),
      body reply = JObj {[ "tasks" := items ]}
      ∧ (health env' w').1 = ok (jsonify (JObj b))
      ∧ b !! "last_tasks" = Some items
      ∧ (get_history w').1
          = ok (jsonify (JObj {[ "chats" := JArr cs; "tasks" := JArr ts;
                                 "emails" := JArr es ]}))
      ∧ last ts = Some (task_record goal items (clock env)).
Proof.
  intros env env' data w reply Hr Hs w'. subst w'.
  destruct (create_tasks_cases env data w)
    as [(e & He & H) | (kvs & s & -> & Hm & H)].
  { rewrite H in Hr. discriminate Hr. }
  cbv zeta in H. destruct H as [H | [(items & H) | (e & He & H)]].
  - rewrite H in Hr. injection Hr as <-. discriminate Hs.
  - rewrite H in Hr |- *. injection Hr as <-.
    exists (strip s), items. eexists _, _, _, _.
    split; [reflexivity |]. split; [reflexivity |].
    split; [by rewrite !lookup_insert_ne, lookup_singleton_eq by done |].
    split; [reflexivity |]. apply last_slice_snoc.
  - rewrite H in Hr. discriminate Hr.
Qed.

Lemma create_tasks_then_read_witness :
  let data := JObj {[ "goal" := JStr "ship the release" ]} in
  let reply := jsonify (JObj {[ "tasks" := JStr "hi" ]}) in
  ((create_tasks always_hi data boot).1 = ok reply ∧ status reply = 200)
  ∧ ∃ (goal : string) (items : json) (b : gmap string json) (cs ts es : list json),
      body reply = JObj {[ "tasks" := items ]}
      ∧ (health never_choices (create_tasks always_hi data boot).2).1
          = ok (jsonify (JObj b))
      ∧ b !! "last_tasks" = Some items
      ∧ (get_history (create_tasks always_hi data boot).2).1
          = ok (jsonify (JObj {[ "chats" := JArr cs; "tasks" := JArr ts;
                                 "emails" := JArr es ]}))
      ∧ last ts = Some (task_record goal items (clock always_hi)).
Proof.
  intros data reply.
  assert (H : (create_tasks always_hi data boot).1 = ok reply) by reflexivity.
  split; [split; [exact H | reflexivity] |].
  exact (create_tasks_then_read always_hi never_choices data boot reply H eq_refl).
Defined.

(** *** Exceptions and growth *)

(** X17. A handler that raises has raised AttributeError, TypeError,
    KeyError or IndexError, never an exception of the transport: those are
    all caught by the upstream client.  When it raises, the three logs,
    [xp] and [last_tasks] are what they were; only [last_chat] may have
    been overwritten, by /api/ask or /api/draft-email.  The routes
    /api/health, /api/history and /api/history/clear never raise. *)
Theorem handle_exception_safety :
  ∀ (env : Env) (c : Call) (w : World) (e : exn),
    (handle env c w).1 = inl e →
    let m := mem w in
    let m' := mem (handle env c w).2 in
    exn_class e ∈ [AttributeError; TypeError; KeyError; IndexError]
    ∧ history m' = history m ∧ xp m' = xp m ∧ last_tasks m' = last_tasks m
    ∧ match c with
      | PostAsk _ | PostDraftEmail _ => True
      | PostTasks _ | PostXp _ => m' = m
      | GetHealth | GetHistory | PostHistoryClear => False
      end.
Proof.
  intros env c w e He m m'. subst m m'. revert He.
  assert (Hcls : ∀ e0, exn_class e0 ∈ [TypeError; KeyError; IndexError] →
            exn_class e0 ∈ [AttributeError; TypeError; KeyError; IndexError])
    by (intros e0 H0; apply elem_of_cons; by right).
  assert (Hattr : ∀ e0, exn_class e0 = AttributeError →
            exn_class e0 ∈ [AttributeError; TypeError; KeyError; IndexError])
    by (intros e0 ->; apply elem_of_cons; by left).
  destruct c as [data | data | data | data | | |]; cbn [handle].
  - destruct (ask_cases env data w)
      as [(e0 & He0 & ->) | (kvs & s & -> & Hs & [[Hb ->] | [Hb H]])].
    + intros [= <-]. repeat split; by try apply Hattr.
    + discriminate.
    + cbv zeta in H.
      destruct H as [-> | [(k & m & ai & Hk & ->) | (k & e0 & Hk & He0 & ->)]];
        try discriminate.
      intros [= <-]. repeat split; by try apply Hcls.
  - destruct (create_tasks_cases env data w)
      as [(e0 & He0 & ->) | (kvs & s & -> & Hs & H)].
    + intros [= <-]. repeat split; by try apply Hattr.
    + cbv zeta in H. destruct H as [-> | [(items & ->) | (e0 & He0 & ->)]];
        try discriminate.
      intros [= <-]. repeat split; by try apply Hcls.
  - destruct (draft_email_cases env data w)
      as [(e0 & He0 & ->) | (kvs & s & -> & Hs & [[Hb ->] | [Hb H]])].
    + intros [= <-]. repeat split; by try apply Hattr.
    + discriminate.
    + cbv zeta in H. destruct H as [-> | [(draft & ->) | (e0 & He0 & ->)]];
        try discriminate.
      intros [= <-]. repeat split; by try apply Hcls.
  - destruct (xp_update_cases data w) as [(e0 & He0 & ->) | (kvs & label & -> & H)].
    + intros [= <-]. repeat split; by try apply Hattr.
    + cbv zeta in H. rewrite H. discriminate.
  - discriminate.
  - discriminate.
  - discriminate.
Qed.

Lemma handle_exception_safety_witness :
  let c := PostTasks (JObj {[ "goal" := JStr "ship" ]}) in
  (handle empty_then_hi c boot).1 = raise IndexError "list index out of range"
  ∧ mem (handle empty_then_hi c boot).2 = memory.
Proof.
  intros c.
  assert (H : (handle empty_then_hi c boot).1
              = raise IndexError "list index out of range") by reflexivity.
  split; [exact H |].
  exact (proj2 (proj2 (proj2 (proj2
           (handle_exception_safety empty_then_hi c boot _ H))))).
Defined.

Lemma entries_step c m m' : effect c m m' → (entries m' ≤ entries m + 1)%nat.
Proof.
  intros H. inversion H; subst; unfold entries; cbn;
    rewrite ?length_app; simpl; lia.
Qed.

Lemma ask_hello_always_hi w :
  mem (handle always_hi (PostAsk hello) w).2
  = append_chats (chat_record "hello" (JStr "hi") (clock always_hi))
      (set_last_chat (JStr "hello") (mem w)).
Proof.
  cbn [handle]. unfold hello.
  rewrite (run_ask always_hi {[ "message" := JStr "hello" ]} "hello" w)
    by reflexivity.
  change (blank "hello") with false. cbn [models for_return].
  erewrite run_bind_val
    by (rewrite run_ask_attempt; cbv zeta;
        change (attempt always_hi (strip "hello") _ _) with (completion "hi");
        by rewrite in_dict, first_content_hi).
  reflexivity.
Qed.

(** X18. A request adds at most one entry to the logs, so over any run of
    the server the logs hold at most as many entries more than at the start
    as requests were served.  The bound is reached for every number of
    requests: [n] answered calls to /api/ask add exactly [n] entries, so the
    logs grow without bound. *)
Theorem serve_entries_bound :
  (∀ (reqs : list (Env * Call)) (w : World),
     (entries (mem (serve reqs w)) ≤ entries (mem w) + length reqs)%nat)
  ∧ (∀ (n : nat) (w : World),
       length (asks n) = n
       ∧ entries (mem (serve (asks n) w)) = (entries (mem w) + n)%nat).
Proof.
  split.
  - induction reqs as [| [env c] reqs IH]; intros w; [simpl; lia |].
    rewrite serve_cons. specialize (IH (handle env c w).2).
    pose proof (entries_step _ _ _ (handle_step env c w)). simpl length. lia.
  - intros n. unfold asks. induction n as [| n IH]; intros w.
    { split; [done | simpl; lia]. }
    cbn [replicate]. rewrite serve_cons.
    destruct (IH (handle always_hi (PostAsk hello) w).2) as [Hlen Hent].
    split; [simpl; by rewrite Hlen |].
    rewrite Hent, ask_hello_always_hi. unfold entries. cbn.
    rewrite length_app. simpl. lia.
Qed.

Example busy_run_end :
  let w := serve busy_run boot in
  xp (mem w) = 515
  ∧ last_chat (mem w) = JStr "Ping"
  ∧ last_tasks (mem w) = JStr "hi"
  ∧ history (mem w)
      = {| chats := [];
           tasks := [task_record "" (JStr "hi") (clock always_hi)];
           emails := [email_record "Ping" (JStr "hi") (clock always_hi)] |}
  ∧ length (sent w) = 5%nat.
Proof. vm_compute. repeat split. Qed.
